(** * The pattern-dictionary codec of [multi_language_compression_test.py]

    A shallow embedding of the methods of [MultiLanguageCompressionTester]
    that make up the codec: [create_test_ast], [create_compact_signature],
    [compress_value], [simulate_compression], [create_semantic_signature],
    [detect_semantic_type], [is_common_construct], [compress_type] and
    [simulate_decompression].

    Modelling choices.
    - A Python [str] is a [string] whose characters are the code points
      U+0000 to U+00FF, the character with code n being [ascii_of_nat n]:
      the white-space and case tables below are Python's on this range, and
      a text with a character above U+00FF is outside the model.
    - A Python [int] is a [Z].
    - A Python [dict] keyed by strings is an association list in insertion
      order with unique keys: the encoder numbers its entries in iteration
      order and the decoder scans the tables in that order.
    - A node is a record of the keys the codec reads and writes; the key
      ['children'] is the empty list in every node the code builds and is
      left out. *)

From Stdlib Require Import Bool Arith ZArith Lia List Sorted Ascii String.
From Stdlib Require Import DecimalString.
Import ListNotations.

Local Open Scope string_scope.
Local Open Scope Z_scope.

(** ** Python string methods *)

Module PyStr.

(* the code of the character lies between lo and hi *)
Definition between (lo hi : nat) (c : ascii) : bool :=
  let n := nat_of_ascii c in (lo <=? n)%nat && (n <=? hi)%nat.

(* the characters that lower() changes: A-Z, and U+00C0 to U+00DE without
   the multiplication sign U+00D7 *)
Definition is_upper (c : ascii) : bool :=
  between 65 90 c || between 192 214 c || between 216 222 c.

(* the characters whose upper case is one character of the range: a-z, and
   U+00E0 to U+00FE without the division sign U+00F7 *)
Definition is_lower (c : ascii) : bool :=
  between 97 122 c || between 224 246 c || between 248 254 c.

(* the cased characters: the letters above, the ordinal indicators U+00AA and
   U+00BA, the micro sign U+00B5, sharp s U+00DF and y with diaeresis
   U+00FF *)
Definition is_cased (c : ascii) : bool :=
  is_upper c || is_lower c
  || between 170 170 c || between 181 181 c || between 186 186 c
  || between 223 223 c || between 255 255 c.

(* str.isspace: TAB, LF, VT, FF, CR, FS, GS, RS, US, SP, NEL U+0085 and the
   no-break space U+00A0 *)
Definition is_space (c : ascii) : bool :=
  between 9 13 c || between 28 32 c || between 133 133 c || between 160 160 c.

Definition lower_char (c : ascii) : ascii :=
  if is_upper c then ascii_of_nat (nat_of_ascii c + 32) else c.

Definition upper_char (c : ascii) : ascii :=
  if is_lower c then ascii_of_nat (nat_of_ascii c - 32) else c.

(* c.upper(): sharp s gives two characters.  The upper case of the micro
   sign and of y with diaeresis lies above U+00FF; the code calls upper() and
   title() on the keywords and abbreviations of its table only, which are
   lower-case ASCII letters (common_patterns_ascii below) *)
Definition upper_text (c : ascii) : string :=
  if between 223 223 c then "SS" else String (upper_char c) EmptyString.

(* the title case of a character: that of sharp s is Ss *)
Definition title_text (c : ascii) : string :=
  if between 223 223 c then "Ss" else String (upper_char c) EmptyString.

(* s.lower() *)
Fixpoint lower (s : string) : string :=
  match s with
  | EmptyString => EmptyString
  | String c s' => String (lower_char c) (lower s')
  end.

(* s.upper() *)
Fixpoint upper (s : string) : string :=
  match s with
  | EmptyString => EmptyString
  | String c s' => upper_text c ++ upper s'
  end.

(* s.title(): a character is put in title case when the character before it
   is not cased, in lower case otherwise *)
Fixpoint title_from (previous_is_cased : bool) (s : string) : string :=
  match s with
  | EmptyString => EmptyString
  | String c s' =>
      (if previous_is_cased then String (lower_char c) EmptyString
       else title_text c)
      ++ title_from (is_cased c) s'
  end.

Definition title (s : string) : string := title_from false s.

(* s[:n] *)
Fixpoint take (n : nat) (s : string) : string :=
  match n, s with
  | S n', String c s' => String c (take n' s')
  | _, _ => EmptyString
  end.

(* s[n:] *)
Fixpoint drop (n : nat) (s : string) : string :=
  match n, s with
  | S n', String _ s' => drop n' s'
  | _, _ => s
  end.

(* s.startswith(p) *)
Definition startswith (s p : string) : bool := String.prefix p s.

(* sub in s *)
Fixpoint contains (sub s : string) : bool :=
  String.prefix sub s ||
  match s with
  | EmptyString => false
  | String _ s' => contains sub s'
  end.

(* s.lstrip() *)
Fixpoint lstrip (s : string) : string :=
  match s with
  | EmptyString => EmptyString
  | String c s' => if is_space c then lstrip s' else s
  end.

(* s.rstrip() *)
Fixpoint rstrip (s : string) : string :=
  match s with
  | EmptyString => EmptyString
  | String c s' =>
      match rstrip s' with
      | EmptyString => if is_space c then EmptyString else String c EmptyString
      | r => String c r
      end
  end.

(* s.strip() *)
Definition strip (s : string) : string := rstrip (lstrip s).

(* s.replace(old, new): the occurrences of [old] are found from the left and
   do not overlap; [skip] counts the characters of a matched occurrence that
   are still to be passed over *)
Fixpoint replace_from (old new : string) (skip : nat) (s : string) : string :=
  match s with
  | EmptyString => if (old =? "")%string then new else EmptyString
  | String c s' =>
      match skip with
      | S k => replace_from old new k s'
      | O =>
          if String.prefix old s
          then new ++ match String.length old with
                      | O => String c (replace_from old new 0 s')
                      | S k => replace_from old new k s'
                      end
          else String c (replace_from old new 0 s')
      end
  end.

Definition replace (s old new : string) : string := replace_from old new 0 s.

(* s.split(sep) for a one-character separator *)
Fixpoint split_char (sep : ascii) (s : string) : list string :=
  match s with
  | EmptyString => [EmptyString]
  | String c s' =>
      if Ascii.eqb c sep then EmptyString :: split_char sep s'
      else match split_char sep s' with
           | [] => [String c EmptyString]
           | w :: ws => String c w :: ws
           end
  end.

End PyStr.

(** ** Python dictionaries with string keys, in insertion order *)

Module PyDict.

Section Dict.
Variable V : Type.

Definition dict : Type := list (string * V).

(* d.get(k) *)
Fixpoint get (k : string) (d : dict) : option V :=
  match d with
  | [] => None
  | (k', v) :: d' => if (k' =? k)%string then Some v else get k d'
  end.

(* k in d *)
Definition mem (k : string) (d : dict) : bool :=
  match get k d with Some _ => true | None => false end.

(* d[k] = f(d[k]) for a key that is present: the entry keeps its place *)
Fixpoint update (k : string) (f : V -> V) (d : dict) : dict :=
  match d with
  | [] => []
  | (k', v) :: d' =>
      if (k' =? k)%string then (k', f v) :: d' else (k', v) :: update k f d'
  end.

(* d[k] = v: a present key keeps its place, a new key goes last *)
Definition set (k : string) (v : V) (d : dict) : dict :=
  if mem k d then update k (fun _ => v) d else (d ++ [(k, v)])%list.

(* the dict a literal {k1: v1, k2: v2, ...} builds, duplicate keys included *)
Definition of_literal (l : list (string * V)) : dict :=
  fold_left (fun d kv => set (fst kv) (snd kv) d) l [].

Definition values (d : dict) : list V := map snd d.

End Dict.

Arguments get {V} k d.
Arguments mem {V} k d.
Arguments update {V} k f d.
Arguments set {V} k v d.
Arguments of_literal {V} l.
Arguments values {V} d.

End PyDict.

Abbreviation dict := PyDict.dict.

(** ** The data of the codec *)

(* a node of the test AST: {'type', 'value', 'line_number', 'language'}, and
   'semantic_type' on the nodes the decoder rebuilds from a semantic entry *)
Record Node : Type := mkNode {
  n_type : string;
  n_value : string;
  n_line_number : Z;
  n_language : string;
  n_semantic_type : option string
}.

(* the 'template' of an exact pattern *)
Record PatternTemplate : Type := mkPatternTemplate {
  pt_type : string;
  pt_value : string;
  pt_language : string
}.

(* the 'template' of a semantic pattern *)
Record SemanticTemplate : Type := mkSemanticTemplate {
  st_type : string;
  st_value : string;
  st_language : string;
  st_semantic_type : string
}.

(* phase 1 bookkeeping: {'count', 'template'} *)
Record Info (T : Type) : Type := mkInfo {
  info_count : Z;
  info_template : T
}.
Arguments mkInfo {T} _ _.
Arguments info_count {T} _.
Arguments info_template {T} _.

(* an entry of 'patterns': {'id', 'template', 'count'} *)
Record PatternEntry : Type := mkPatternEntry {
  pe_id : Z;
  pe_template : PatternTemplate;
  pe_count : Z
}.

(* an entry of 'semantic_patterns': {'id', 'template', 'count', 'semantic_type'} *)
Record SemanticEntry : Type := mkSemanticEntry {
  se_id : Z;
  se_template : SemanticTemplate;
  se_count : Z;
  se_semantic_type : string
}.

(* an element of 'data': ['P', id, line], ['S', id, line] or
   ['O', type, value, line]; the encoder emits no other marker, and the
   decoder passes over an element with another marker *)
Inductive Item : Type :=
| ItemP (pattern_id line_number : Z)
| ItemS (semantic_id line_number : Z)
| ItemO (type value : string) (line_number : Z).

Record Metadata : Type := mkMetadata {
  total_nodes : Z;
  pattern_count : Z;
  semantic_count : Z;
  compression_version : string;
  advanced_features : bool
}.

(* the dict the encoder returns and the decoder takes; a key that is absent
   is [None], so the empty dict is [empty_dict] below *)
Record CompressedData : Type := mkCompressedData {
  patterns : option (dict PatternEntry);
  semantic_patterns : option (dict SemanticEntry);
  data : option (list Item);
  metadata : option Metadata
}.

(* {} *)
Definition empty_dict : CompressedData :=
  {| patterns := None; semantic_patterns := None; data := None; metadata := None |}.

Definition item_line_number (item : Item) : Z :=
  match item with
  | ItemP _ ln => ln
  | ItemS _ ln => ln
  | ItemO _ _ ln => ln
  end.

(** ** The methods of the tester *)

Import PyStr.

Definition newline : ascii := ascii_of_nat 10.

Definition enumerate {A : Type} (l : list A) : list (nat * A) :=
  combine (seq 0 (List.length l)) l.

Definition create_test_ast (content language : string) : list Node :=
  let lines := split_char newline content in
  flat_map
    (fun il : nat * string =>
       let (i, line) := il in
       if (strip line =? "")%string then []
       else [ {| n_type := "line";
                 n_value := strip line;
                 n_line_number := Z.of_nat i + 1;
                 n_language := language;
                 n_semantic_type := None |} ])
    (enumerate lines).

Definition create_compact_signature (node : Node) : string :=
  let value_preview :=
    if (30 <? String.length (n_value node))%nat
    then take 30 (n_value node) else n_value node in
  n_type node ++ ":" ++ value_preview ++ ":" ++ n_language node.

Definition common_patterns_literal : list (string * string) :=
  [ ("function", "fn"); ("return", "ret"); ("variable", "var");
    ("constant", "const"); ("public", "pub"); ("private", "priv");
    ("protected", "prot"); ("interface", "iface");
    ("implementation", "impl"); ("namespace", "ns"); ("exception", "exc");
    ("parameter", "param"); ("argument", "arg"); ("dictionary", "dict");
    ("array", "arr"); ("string", "str"); ("integer", "int");
    ("boolean", "bool"); ("floating", "float"); ("character", "char");
    ("pointer", "ptr"); ("reference", "ref"); ("iterator", "iter");
    ("template", "tpl"); ("generic", "gen"); ("abstract", "abs");
    ("virtual", "virt"); ("static", "stat"); ("final", "fin");
    ("override", "ovr"); ("synchronized", "sync"); ("volatile", "vol");
    ("transient", "trans"); ("native", "nat"); ("strictfp", "strict");
    ("enumeration", "enum"); ("annotation", "ann"); ("deprecated", "dep");
    ("suppress", "sup"); ("override", "ovr"); ("abstract", "abs");
    ("interface", "iface"); ("package", "pkg"); ("import", "imp");
    ("export", "exp"); ("default", "def"); ("extends", "ext");
    ("implements", "impl"); ("throws", "thr"); ("try", "try");
    ("catch", "cat"); ("finally", "fin"); ("throw", "thr"); ("new", "new");
    ("this", "this"); ("super", "super"); ("null", "null");
    ("true", "true"); ("false", "false") ].

Definition common_patterns : dict string :=
  Eval vm_compute in PyDict.of_literal common_patterns_literal.

(* the three replacements of a table entry put a text in the place of one
   that is not shorter *)
Definition entry_shortens (pr : string * string) : bool :=
  let (pattern, replacement) := pr in
  (0 <? String.length pattern)%nat
  && (String.length replacement <=? String.length pattern)%nat
  && (0 <? String.length (title pattern))%nat
  && (String.length replacement <=? String.length (title pattern))%nat
  && (0 <? String.length (upper pattern))%nat
  && (String.length (upper replacement) <=? String.length (upper pattern))%nat.

(* every character of the text is a lower-case ASCII letter *)
Fixpoint ascii_lower_text (s : string) : bool :=
  match s with
  | EmptyString => true
  | String c s' => between 97 122 c && ascii_lower_text s'
  end.

(* the body of the loop over common_patterns.items() *)
Definition apply_pattern (compressed : string) (pr : string * string) : string :=
  let (pattern, replacement) := pr in
  if contains pattern (lower compressed) then
    let compressed := replace compressed pattern replacement in
    let compressed := replace compressed (title pattern) replacement in
    replace compressed (upper pattern) (upper replacement)
  else compressed.

Definition prefixes_to_remove : list string :=
  ["get"; "set"; "is"; "has"; "can"; "should"; "will"; "do"].

(* the body of the loop over prefixes_to_remove *)
Definition remove_prefix (compressed prefix : string) : string :=
  if startswith (lower compressed) prefix
     && (String.length prefix + 2 <? String.length compressed)%nat
  then drop (String.length prefix) compressed
  else compressed.

(* the value of [compressed] when compress_value reaches its return *)
Definition transformed (value : string) : string :=
  fold_left remove_prefix prefixes_to_remove
            (fold_left apply_pattern common_patterns value).

Definition compress_value (value : string) : string :=
  if (value =? "")%string then value
  else
    let compressed := transformed value in
    if (String.length compressed <? String.length value)%nat
    then compressed else value.

(* any(keyword in value for keyword in keywords) *)
Definition any_in (keywords : list string) (value : string) : bool :=
  existsb (fun keyword => contains keyword value) keywords.

Definition create_semantic_signature (node : Node) : string :=
  let value := strip (lower (n_value node)) in
  if any_in ["function"; "def "; "fn "; "pub fn"; "fn "] value
  then "function_decl:" ++ n_language node
  else if any_in ["class "; "struct "; "impl "; "trait "] value
  then "type_decl:" ++ n_language node
  else if any_in ["if "; "else"; "match "; "switch "] value
  then "control_flow:" ++ n_language node
  else if any_in ["for "; "while "; "loop "] value
  then "loop_construct:" ++ n_language node
  else if any_in ["return "; "yield "; "break "] value
  then "flow_control:" ++ n_language node
  else if any_in ["import "; "use "; "extern "] value
  then "import_statement:" ++ n_language node
  else if any_in ["//"; "/*"; "#"; "///"] value
  then "comment:" ++ n_language node
  else if any_in ["let "; "var "; "const "; "mut "] value
  then "variable_decl:" ++ n_language node
  else "other:" ++ n_language node.

Definition detect_semantic_type (node : Node) : string :=
  let value := strip (lower (n_value node)) in
  if any_in ["function"; "def "; "fn "] value then "function"
  else if any_in ["class "; "struct "] value then "type"
  else if any_in ["if "; "else"] value then "control"
  else if any_in ["//"; "/*"; "#"] value then "comment"
  else if any_in ["let "; "var "; "const "] value then "variable"
  else "statement".

(* semantic_type in [...] *)
Definition str_in (s : string) (l : list string) : bool :=
  existsb (fun x => (s =? x)%string) l.

Definition is_common_construct (template : SemanticTemplate) : bool :=
  let semantic_type := st_semantic_type template in
  str_in semantic_type ["function"; "type"; "control"; "comment"; "variable"].

Definition type_mapping : dict string :=
  [ ("line", "l"); ("statement", "s"); ("function", "f"); ("class", "c");
    ("variable", "v"); ("comment", "cm"); ("control", "ctrl") ].

Definition compress_type (type_str : string) : string :=
  match PyDict.get type_str type_mapping with
  | Some t => t
  | None => type_str
  end.

(* these are unfolded by hand in the proofs, never by simplification *)
Arguments create_compact_signature : simpl never.
Arguments create_semantic_signature : simpl never.
Arguments detect_semantic_type : simpl never.
Arguments transformed : simpl never.
Arguments compress_value : simpl never.
Arguments compress_type : simpl never.

(** *** [simulate_compression] *)

Definition bump {T : Type} (info : Info T) : Info T :=
  {| info_count := info_count info + 1; info_template := info_template info |}.

(* phase 1, the body of the loop over the nodes *)
Definition count_node
    (st : dict (Info PatternTemplate) * dict (Info SemanticTemplate))
    (node : Node)
  : dict (Info PatternTemplate) * dict (Info SemanticTemplate) :=
  let (patterns, semantic_patterns) := st in
  let signature := create_compact_signature node in
  let semantic_key := create_semantic_signature node in
  let patterns :=
    if PyDict.mem signature patterns
    then PyDict.update signature bump patterns
    else PyDict.set signature
           {| info_count := 1;
              info_template :=
                {| pt_type := n_type node;
                   pt_value := compress_value (n_value node);
                   pt_language := n_language node |} |}
           patterns in
  let semantic_patterns :=
    if PyDict.mem semantic_key semantic_patterns
    then PyDict.update semantic_key bump semantic_patterns
    else PyDict.set semantic_key
           {| info_count := 1;
              info_template :=
                {| st_type := n_type node;
                   st_value := compress_value (n_value node);
                   st_language := n_language node;
                   st_semantic_type := detect_semantic_type node |} |}
           semantic_patterns in
  (patterns, semantic_patterns).

Definition detect_patterns (nodes : list Node)
  : dict (Info PatternTemplate) * dict (Info SemanticTemplate) :=
  fold_left count_node nodes ([], []).

(* phase 2, the body of the loop over patterns.items() *)
Definition add_pattern (st : dict PatternEntry * Z)
    (kv : string * Info PatternTemplate) : dict PatternEntry * Z :=
  let (pattern_dict, pattern_counter) := st in
  let (signature, info) := kv in
  if 1 <? info_count info
  then (PyDict.set signature
          {| pe_id := pattern_counter;
             pe_template := info_template info;
             pe_count := info_count info |}
          pattern_dict,
        pattern_counter + 1)
  else (pattern_dict, pattern_counter).

(* phase 2, the body of the loop over semantic_patterns.items() *)
Definition add_semantic (st : dict SemanticEntry * Z)
    (kv : string * Info SemanticTemplate) : dict SemanticEntry * Z :=
  let (semantic_dict, semantic_counter) := st in
  let (semantic_key, info) := kv in
  if (1 <? info_count info) || is_common_construct (info_template info)
  then (PyDict.set semantic_key
          {| se_id := semantic_counter;
             se_template := info_template info;
             se_count := info_count info;
             se_semantic_type := st_semantic_type (info_template info) |}
          semantic_dict,
        semantic_counter + 1)
  else (semantic_dict, semantic_counter).

Definition build_pattern_dict (patterns : dict (Info PatternTemplate))
  : dict PatternEntry :=
  fst (fold_left add_pattern patterns ([], 0)).

Definition build_semantic_dict (semantic_patterns : dict (Info SemanticTemplate))
  : dict SemanticEntry :=
  fst (fold_left add_semantic semantic_patterns ([], 0)).

(* phase 3, the element appended to compressed_data for one node *)
Definition compress_node (pattern_dict : dict PatternEntry)
    (semantic_dict : dict SemanticEntry) (node : Node) : Item :=
  let signature := create_compact_signature node in
  let semantic_key := create_semantic_signature node in
  match PyDict.get semantic_key semantic_dict with
  | Some sem => ItemS (se_id sem) (n_line_number node)
  | None =>
      match PyDict.get signature pattern_dict with
      | Some pat =>
          if 1 <? pe_count pat
          then ItemP (pe_id pat) (n_line_number node)
          else ItemO (compress_type (n_type node))
                     (compress_value (n_value node)) (n_line_number node)
      | None =>
          ItemO (compress_type (n_type node))
                (compress_value (n_value node)) (n_line_number node)
      end
  end.

Definition simulate_compression (nodes : list Node) : CompressedData :=
  match nodes with
  | [] => empty_dict
  | _ :: _ =>
      let (patterns, semantic_patterns) := detect_patterns nodes in
      let pattern_dict := build_pattern_dict patterns in
      let semantic_dict := build_semantic_dict semantic_patterns in
      let compressed_data := map (compress_node pattern_dict semantic_dict) nodes in
      {| patterns := Some pattern_dict;
         semantic_patterns := Some semantic_dict;
         data := Some compressed_data;
         metadata :=
           Some {| total_nodes := Z.of_nat (List.length nodes);
                   pattern_count := Z.of_nat (List.length pattern_dict);
                   semantic_count := Z.of_nat (List.length semantic_dict);
                   compression_version := "5.0";
                   advanced_features := true |} |}
  end.

(** *** [simulate_decompression] *)

(* the scan [for sig, info in table.items(): if info['id'] == wanted: ...
   break] *)
Definition find_by_id {E : Type} (id_of : E -> Z) (table : dict E) (wanted : Z)
  : option E :=
  match find (fun kv : string * E => id_of (snd kv) =? wanted) table with
  | Some kv => Some (snd kv)
  | None => None
  end.

(* what one element of 'data' appends to [reconstructed]: a node, or nothing
   when no entry of the table has the id *)
Definition decompress_item (patterns : dict PatternEntry)
    (semantic_patterns : dict SemanticEntry) (item : Item) : option Node :=
  match item with
  | ItemP pattern_id line_number =>
      match find_by_id pe_id patterns pattern_id with
      | Some info =>
          let template := pe_template info in
          Some {| n_type := pt_type template;
                  n_value := pt_value template;
                  n_line_number := line_number;
                  n_language := pt_language template;
                  n_semantic_type := None |}
      | None => None
      end
  | ItemS semantic_id line_number =>
      match find_by_id se_id semantic_patterns semantic_id with
      | Some info =>
          let template := se_template info in
          Some {| n_type := st_type template;
                  n_value := st_value template;
                  n_line_number := line_number;
                  n_language := st_language template;
                  n_semantic_type := Some (st_semantic_type template) |}
      | None => None
      end
  | ItemO type value line_number =>
      Some {| n_type := type;
              n_value := value;
              n_line_number := line_number;
              n_language := "unknown";
              n_semantic_type := None |}
  end.

Fixpoint decompress_items (patterns : dict PatternEntry)
    (semantic_patterns : dict SemanticEntry) (items : list Item) : list Node :=
  match items with
  | [] => []
  | item :: rest =>
      match decompress_item patterns semantic_patterns item with
      | Some node => node :: decompress_items patterns semantic_patterns rest
      | None => decompress_items patterns semantic_patterns rest
      end
  end.

Definition get_default {A : Type} (o : option A) (default : A) : A :=
  match o with Some a => a | None => default end.

Definition simulate_decompression (compressed_data : CompressedData) : list Node :=
  match data compressed_data with
  | None => []
  | Some items =>
      let patterns := get_default (patterns compressed_data) [] in
      let semantic_patterns := get_default (semantic_patterns compressed_data) [] in
      decompress_items patterns semantic_patterns items
  end.

(** ** Vocabulary of the properties *)

(* the 'data' list of a document, empty when the key is absent *)
Definition records (doc : CompressedData) : list Item :=
  get_default (data doc) [].

Definition pattern_table (doc : CompressedData) : dict PatternEntry :=
  get_default (patterns doc) [].

Definition semantic_table (doc : CompressedData) : dict SemanticEntry :=
  get_default (semantic_patterns doc) [].

(* the common-construct set of [is_common_construct] *)
Definition common_types : list string :=
  ["function"; "type"; "control"; "comment"; "variable"].

(* some entry of the table has the id *)
Definition id_present {E : Type} (id_of : E -> Z) (table : dict E) (wanted : Z)
  : bool :=
  existsb (fun kv : string * E => id_of (snd kv) =? wanted) table.

(* the reference carried by a 'P' or 'S' record is to an id of its table *)
Definition item_resolves (pats : dict PatternEntry) (sems : dict SemanticEntry)
    (item : Item) : bool :=
  match item with
  | ItemP pattern_id _ => id_present pe_id pats pattern_id
  | ItemS semantic_id _ => id_present se_id sems semantic_id
  | ItemO _ _ _ => true
  end.

(* a valid document: every 'S' and 'P' record references an id that is
   present in the corresponding table *)
Definition valid_document (doc : CompressedData) : bool :=
  forallb (item_resolves (pattern_table doc) (semantic_table doc)) (records doc).

(* the records of a document whose reference resolves *)
Definition resolvable_records (doc : CompressedData) : list Item :=
  filter (item_resolves (pattern_table doc) (semantic_table doc)) (records doc).

(* how a call of the decoder can end.  [simulate_decompression] contains no
   raise statement and subscripts only keys that every well-formed document
   has, so on the documents of this model it always returns *)
Inductive Table : Type := PatternsTable | SemanticPatternsTable.

Inductive Outcome : Type :=
| Returned (nodes : list Node)
| DecodeError (record_index : nat) (table : Table).

Definition decode_outcome (doc : CompressedData) : Outcome :=
  Returned (simulate_decompression doc).

(* two characters that are equal up to letter case *)
Definition same_char_up_to_case (a b : ascii) : Prop :=
  a = b \/ (is_cased a = true /\ is_cased b = true /\ lower_char a = lower_char b).

(* two texts that are identical except for letter case *)
Inductive same_up_to_case : string -> string -> Prop :=
| sutc_nil : same_up_to_case EmptyString EmptyString
| sutc_cons : forall a b s t,
    same_char_up_to_case a b -> same_up_to_case s t ->
    same_up_to_case (String a s) (String b t).

(* two nodes that are identical except for the letter case of their text *)
Definition nodes_differ_only_in_case (n1 n2 : Node) : Prop :=
  n_type n1 = n_type n2 /\
  n_line_number n1 = n_line_number n2 /\
  n_language n1 = n_language n2 /\
  n_semantic_type n1 = n_semantic_type n2 /\
  same_up_to_case (n_value n1) (n_value n2).

(* a node as [create_test_ast] builds it *)
Definition line_node (value : string) (line_number : Z) (language : string) : Node :=
  {| n_type := "line"; n_value := value; n_line_number := line_number;
     n_language := language; n_semantic_type := None |}.

(** The statements of the specification that the code does not satisfy, as
    the specification words them. *)

(* every valid document decodes to metadata.totalNodes nodes *)
Definition spec_round_trip_count : Prop :=
  forall doc m,
    valid_document doc = true ->
    metadata doc = Some m ->
    Z.of_nat (List.length (simulate_decompression doc)) = total_nodes m.

(* a dangling reference makes the decoder raise a DecodeError *)
Definition spec_decode_error : Prop :=
  forall doc,
    valid_document doc = false ->
    exists i t, decode_outcome doc = DecodeError i t.

(* the i-th decoded node has the line number of the i-th record *)
Definition spec_order_preservation : Prop :=
  forall doc i node,
    nth_error (simulate_decompression doc) i = Some node ->
    option_map item_line_number (nth_error (records doc) i)
    = Some (n_line_number node).

(* a prefix is stripped exactly when the text begins with it and what remains
   after it is longer than the prefix plus 2 *)
Definition spec_prefix_rule : Prop :=
  forall compressed prefix,
    In prefix prefixes_to_remove ->
    (remove_prefix compressed prefix <> compressed <->
     startswith (lower compressed) prefix = true /\
     (String.length prefix + 2
      < String.length (drop (String.length prefix) compressed))%nat).

(* both signatures are case-insensitive *)
Definition spec_case_insensitive : Prop :=
  forall n1 n2,
    nodes_differ_only_in_case n1 n2 ->
    create_compact_signature n1 = create_compact_signature n2 /\
    create_semantic_signature n1 = create_semantic_signature n2.

(* the empty input encodes to a document with empty tables, no records and
   totalNodes = 0 *)
Definition spec_empty_document : Prop :=
  exists m,
    patterns (simulate_compression []) = Some [] /\
    semantic_patterns (simulate_compression []) = Some [] /\
    data (simulate_compression []) = Some [] /\
    metadata (simulate_compression []) = Some m /\
    total_nodes m = 0 /\
    simulate_decompression (simulate_compression []) = [].

(** Documents and inputs used as examples. *)

Definition metadata_of (n : Z) : Metadata :=
  {| total_nodes := n; pattern_count := 0; semantic_count := 0;
     compression_version := "5.0"; advanced_features := true |}.

(* no records, yet a metadata block that announces one node *)
Definition doc_miscounted : CompressedData :=
  {| patterns := Some []; semantic_patterns := Some []; data := Some [];
     metadata := Some (metadata_of 1) |}.

(* a 'P' record that references id 7 of an empty pattern table, between two
   literal records *)
Definition doc_dangling : CompressedData :=
  {| patterns := Some []; semantic_patterns := Some [];
     data := Some [ItemO "l" "a" 1; ItemP 7 2; ItemO "l" "b" 3];
     metadata := Some (metadata_of 3) |}.

(* Scenario A of the specification *)
Definition scenario_a : list Node :=
  [ line_node "let x = 1;" 1 "demo"; line_node "let x = 1;" 2 "demo";
    line_node "// note" 3 "demo"; line_node "let y = 2;" 4 "demo";
    line_node "// note" 5 "demo" ].

(* two lines that agree on their first 30 characters and fall in different
   semantic categories, neither of them a common construct, and a loop *)
Definition long_lines : list Node :=
  [ line_node "aaaaaaaaaaaaaaaaaaaaaaaaaaaaaa + b" 1 "demo";
    line_node "aaaaaaaaaaaaaaaaaaaaaaaaaaaaaa + yield c" 2 "demo";
    line_node "while z" 3 "demo" ].

(** ** The size estimate *)

(* len(s.encode('utf-8')): one byte for a character below 128, two for a
   character from 128 to 255 *)
Fixpoint utf8_len (s : string) : Z :=
  match s with
  | EmptyString => 0
  | String c s' => (if (nat_of_ascii c <? 128)%nat then 1 else 2) + utf8_len s'
  end.

(* a call that returns, or raises KeyError on a subscript of a missing key *)
Inductive PyResult (A : Type) : Type :=
| Returns (a : A)
| KeyError (key : string).
Arguments Returns {A} a.
Arguments KeyError {A} key.

(* not compressed_data: the dict has no key *)
Definition is_empty_dict (doc : CompressedData) : bool :=
  match patterns doc, semantic_patterns doc, data doc, metadata doc with
  | None, None, None, None => true
  | _, _, _, _ => false
  end.

(* the body of the loop over compressed_data['patterns'].items() *)
Definition add_pattern_size (pattern_size : Z) (kv : string * PatternEntry) : Z :=
  let (sig, info) := kv in
  let template := pe_template info in
  pattern_size + utf8_len sig + utf8_len (pt_type template)
  + utf8_len (pt_value template) + utf8_len (pt_language template) + 8.

(* the body of the loop over compressed_data['data'] *)
Definition add_item_size (data_size : Z) (item : Item) : Z :=
  match item with
  | ItemP _ _ => data_size + (1 + 1 + 4)
  | ItemS _ _ => data_size + (1 + 1 + 4)
  | ItemO type value _ => data_size + (1 + utf8_len type + utf8_len value + 4)
  end.

Definition get_compressed_size (compressed_data : CompressedData) : PyResult Z :=
  if is_empty_dict compressed_data then Returns 0
  else
    match patterns compressed_data with
    | None => KeyError "patterns"
    | Some pats =>
        let pattern_size := fold_left add_pattern_size pats 0 in
        match data compressed_data with
        | None => KeyError "data"
        | Some items =>
            let data_size := fold_left add_item_size items 0 in
            let metadata_size := 50 in
            Returns (pattern_size + data_size + metadata_size)
        end
    end.

(** ** Vocabulary of the properties of the encoder *)

(* how many nodes of the input have the key [k] *)
Definition occurrences (key : Node -> string) (k : string) (nodes : list Node) : Z :=
  Z.of_nat (List.length (filter (fun n => (key n =? k)%string) nodes)).

(* the first node of the input that has the key [k] *)
Definition first_with (key : Node -> string) (k : string) (nodes : list Node)
  : option Node :=
  find (fun n => (key n =? k)%string) nodes.

(* the templates phase 1 makes from a node *)
Definition pattern_template_of (node : Node) : PatternTemplate :=
  {| pt_type := n_type node;
     pt_value := compress_value (n_value node);
     pt_language := n_language node |}.

Definition semantic_template_of (node : Node) : SemanticTemplate :=
  {| st_type := n_type node;
     st_value := compress_value (n_value node);
     st_language := n_language node;
     st_semantic_type := detect_semantic_type node |}.

(* one half of the body of phase 1: count the key [k], keeping the template
   of its first node *)
Definition count_key {T : Type} (k : string) (t : T) (d : dict (Info T))
  : dict (Info T) :=
  if PyDict.mem k d then PyDict.update k bump d
  else PyDict.set k {| info_count := 1; info_template := t |} d.

Definition count_all {T : Type} (key : Node -> string) (tpl : Node -> T)
    (nodes : list Node) (d : dict (Info T)) : dict (Info T) :=
  fold_left (fun d node => count_key (key node) (tpl node) d) nodes d.

(* the entries phase 2 keeps, numbered from [c] in iteration order *)
Fixpoint number_from {T E : Type} (keep : Info T -> bool)
    (mk : Z -> Info T -> E) (c : Z) (l : dict (Info T)) : dict E :=
  match l with
  | [] => []
  | (k, info) :: rest =>
      if keep info then (k, mk c info) :: number_from keep mk (c + 1) rest
      else number_from keep mk c rest
  end.

Definition keep_pattern (info : Info PatternTemplate) : bool :=
  1 <? info_count info.

Definition keep_semantic (info : Info SemanticTemplate) : bool :=
  (1 <? info_count info) || is_common_construct (info_template info).

Definition pattern_entry_of (c : Z) (info : Info PatternTemplate) : PatternEntry :=
  {| pe_id := c; pe_template := info_template info; pe_count := info_count info |}.

Definition semantic_entry_of (c : Z) (info : Info SemanticTemplate) : SemanticEntry :=
  {| se_id := c; se_template := info_template info; se_count := info_count info;
     se_semantic_type := st_semantic_type (info_template info) |}.

(* the semantic signature [key] gets an entry of the semantic table: it
   occurs more than once in the input, or the first node that has it is a
   common construct *)
Definition semantic_key_kept (nodes : list Node) (key : string) : bool :=
  (1 <? occurrences create_semantic_signature key nodes)
  || match first_with create_semantic_signature key nodes with
     | Some first => is_common_construct (semantic_template_of first)
     | None => false
     end.

(* the exact signature [sig] gets an entry of the pattern table *)
Definition pattern_key_kept (nodes : list Node) (sig : string) : bool :=
  1 <? occurrences create_compact_signature sig nodes.

Definition semantic_kept (nodes : list Node) (node : Node) : bool :=
  semantic_key_kept nodes (create_semantic_signature node).

Definition pattern_kept (nodes : list Node) (node : Node) : bool :=
  pattern_key_kept nodes (create_compact_signature node).

(* the distinct keys of a list, in the order of their first occurrence *)
Fixpoint first_seen (l : list string) : list string :=
  match l with
  | [] => []
  | k :: rest => k :: filter (fun x => negb (x =? k)%string) (first_seen rest)
  end.

(* the integers c, c + 1, ..., c + n - 1 *)
Fixpoint zseq (c : Z) (n : nat) : list Z :=
  match n with
  | O => []
  | S n' => c :: zseq (c + 1) n'
  end.

(* what encoding [nodes] and decoding the result makes of [node], read off
   the input alone *)
Definition round_trip_node (nodes : list Node) (node : Node) : Node :=
  if semantic_kept nodes node then
    let first :=
      get_default (first_with create_semantic_signature
                              (create_semantic_signature node) nodes) node in
    {| n_type := n_type first;
       n_value := compress_value (n_value first);
       n_line_number := n_line_number node;
       n_language := n_language first;
       n_semantic_type := Some (detect_semantic_type first) |}
  else if pattern_kept nodes node then
    let first :=
      get_default (first_with create_compact_signature
                              (create_compact_signature node) nodes) node in
    {| n_type := n_type first;
       n_value := compress_value (n_value first);
       n_line_number := n_line_number node;
       n_language := n_language first;
       n_semantic_type := None |}
  else
    {| n_type := compress_type (n_type node);
       n_value := compress_value (n_value node);
       n_line_number := n_line_number node;
       n_language := "unknown";
       n_semantic_type := None |}.

(* the marker of a record *)
Definition is_semantic_item (item : Item) : bool :=
  match item with ItemS _ _ => true | _ => false end.

Definition is_pattern_item (item : Item) : bool :=
  match item with ItemP _ _ => true | _ => false end.

(* the categories of create_semantic_signature *)
Definition categories : list string :=
  ["function_decl"; "type_decl"; "control_flow"; "loop_construct";
   "flow_control"; "import_statement"; "comment"; "variable_decl"; "other"].

(** ** The engine simulation of [real_compression_integration_test.py] *)

Module Realistic.

(* node['metadata'] *)
Record NodeMetadata : Type := mkNodeMetadata {
  indentation : Z;
  has_content : bool;
  is_comment : bool;
  is_empty : bool
}.

(* a node of the realistic AST; its children are nodes *)
#[warnings="-register-all"]
Inductive RNode : Type :=
| mkRNode (type value : string) (line_number : Z) (language : string)
          (children : list RNode) (metadata : NodeMetadata).

Definition r_type (n : RNode) : string :=
  match n with mkRNode t _ _ _ _ _ => t end.
Definition r_value (n : RNode) : string :=
  match n with mkRNode _ v _ _ _ _ => v end.
Definition r_line_number (n : RNode) : Z :=
  match n with mkRNode _ _ ln _ _ _ => ln end.
Definition r_language (n : RNode) : string :=
  match n with mkRNode _ _ _ l _ _ => l end.
Definition r_children (n : RNode) : list RNode :=
  match n with mkRNode _ _ _ _ c _ => c end.
Definition r_metadata (n : RNode) : NodeMetadata :=
  match n with mkRNode _ _ _ _ _ m => m end.

(* an element of the compressed list: the dict of a pattern reference, whose
   'type' is 'pattern_reference', or an input node kept as it is *)
Inductive CompressedNode : Type :=
| PatternReference (pattern_id : Z) (original_node : RNode) (pattern_count : Z)
                   (structural_preserved : bool)
| Kept (node : RNode).

(* a value of the dict [patterns]: {'count', 'nodes', 'signature'} *)
Record PatternInfo : Type := mkPatternInfo {
  pi_count : Z;
  pi_nodes : list RNode;
  pi_signature : string
}.

(* str(n) of an int *)
Definition str_int (n : Z) : string := NilZero.string_of_int (Z.to_int n).

(* str(b) of a bool *)
Definition str_bool (b : bool) : string := if b then "True" else "False".

(* sep.join(parts) *)
Fixpoint join (sep : string) (parts : list string) : string :=
  match parts with
  | [] => ""
  | [part] => part
  | part :: rest => part ++ sep ++ join sep rest
  end.

Definition create_realistic_ast (content language : string) : list RNode :=
  let lines := split_char newline content in
  flat_map
    (fun il : nat * string =>
       let (i, line) := il in
       if (strip line =? "")%string then []
       else [ mkRNode "statement" (strip line) (Z.of_nat i + 1) language []
                {| indentation :=
                     Z.of_nat (String.length line)
                     - Z.of_nat (String.length (lstrip line));
                   has_content := negb (strip line =? "")%string;
                   is_comment :=
                     existsb (startswith (strip line)) ["#"; "//"; "/*"; "*"];
                   is_empty := (strip line =? "")%string |} ])
    (enumerate lines).

Definition create_pattern_signature (node : RNode) : string :=
  let signature_parts :=
    [ r_type node;
      take 50 (r_value node);
      str_int (indentation (r_metadata node));
      str_bool (is_comment (r_metadata node));
      str_int (Z.of_nat (List.length (r_children node))) ] in
  join "|" signature_parts.

(* the first loop of apply_fixed_compression, one node *)
Definition detect_pattern (patterns : dict PatternInfo) (node : RNode)
  : dict PatternInfo :=
  let pattern_key := create_pattern_signature node in
  if PyDict.mem pattern_key patterns
  then PyDict.update pattern_key
         (fun info => {| pi_count := pi_count info + 1;
                         pi_nodes := (pi_nodes info ++ [node])%list;
                         pi_signature := pi_signature info |})
         patterns
  else PyDict.set pattern_key
         {| pi_count := 1; pi_nodes := [node]; pi_signature := pattern_key |}
         patterns.

Section Hashed.
(* hash() of a str, which Python salts anew in every process *)
Variable hash : string -> Z.

(* the second loop of apply_fixed_compression; patterns[pattern_key] raises
   KeyError for a key that is absent *)
Fixpoint compress_nodes (patterns : dict PatternInfo) (nodes : list RNode)
  : PyResult (list CompressedNode) :=
  match nodes with
  | [] => Returns []
  | node :: rest =>
      let pattern_key := create_pattern_signature node in
      match PyDict.get pattern_key patterns with
      | None => KeyError pattern_key
      | Some pattern_info =>
          let element :=
            if 1 <? pi_count pattern_info
            then PatternReference
                   (hash pattern_key mod 10000)
                   (mkRNode (r_type node) (r_value node) (r_line_number node)
                            (r_language node) (r_children node) (r_metadata node))
                   (pi_count pattern_info) true
            else Kept node in
          match compress_nodes patterns rest with
          | Returns compressed => Returns (element :: compressed)
          | KeyError key => KeyError key
          end
      end
  end.

Definition apply_fixed_compression (nodes : list RNode)
  : PyResult (list CompressedNode) :=
  let patterns := fold_left detect_pattern nodes [] in
  compress_nodes patterns nodes.

End Hashed.

(* the loop of apply_fixed_decompression: an element is rebuilt from
   node['original_node'] when its 'type' is 'pattern_reference', which
   raises KeyError on a kept node of that type, and is kept otherwise *)
Fixpoint apply_fixed_decompression (compressed_nodes : list CompressedNode)
  : PyResult (list RNode) :=
  match compressed_nodes with
  | [] => Returns []
  | node :: rest =>
      let rebuilt :=
        match node with
        | PatternReference _ original_node _ _ =>
            Returns (mkRNode (r_type original_node) (r_value original_node)
                             (r_line_number original_node)
                             (r_language original_node)
                             (r_children original_node)
                             (r_metadata original_node))
        | Kept n =>
            if (r_type n =? "pattern_reference")%string
            then KeyError "original_node"
            else Returns n
        end in
      match rebuilt with
      | KeyError key => KeyError key
      | Returns n =>
          match apply_fixed_decompression rest with
          | Returns reconstructed => Returns (n :: reconstructed)
          | KeyError key => KeyError key
          end
      end
  end.

(* how many nodes have the signature [k] *)
Definition occurrences (k : string) (nodes : list RNode) : Z :=
  Z.of_nat
    (List.length (filter (fun n => (create_pattern_signature n =? k)%string) nodes)).

(* the element the encoder makes of [node], read off the input *)
Definition element_of (hash : string -> Z) (nodes : list RNode) (node : RNode)
  : CompressedNode :=
  if 1 <? occurrences (create_pattern_signature node) nodes
  then PatternReference (hash (create_pattern_signature node) mod 10000) node
                        (occurrences (create_pattern_signature node) nodes) true
  else Kept node.

(* a node that is kept as it is, and read as a pattern reference by the
   decoder *)
Definition misread (nodes : list RNode) (node : RNode) : bool :=
  negb (1 <? occurrences (create_pattern_signature node) nodes)
  && (r_type node =? "pattern_reference")%string.

End Realistic.

(** ** The ledger of [mythgraph_ledger.py] *)

Module Ledger.

(* the truth value of a str-or-None attribute: None and '' are false *)
Definition truthy (o : option string) : bool :=
  match o with
  | Some s => negb (s =? "")%string
  | None => false
  end.

(* how an f-string renders a str-or-None attribute *)
Definition render (o : option string) : string :=
  match o with
  | Some s => s
  | None => "None"
  end.

(* a == b for two str-or-None values *)
Definition opt_eqb (a b : option string) : bool :=
  match a, b with
  | Some x, Some y => (x =? y)%string
  | None, None => true
  | _, _ => false
  end.

(* the initial ledger_hash: 64 zeros *)
Definition zero_hash : string :=
  "0000000000000000000000000000000000000000000000000000000000000000".

(* l[start:] for a list and an int *)
Definition slice_from {A : Type} (start : Z) (l : list A) : list A :=
  let n := Z.of_nat (List.length l) in
  let first := if start <? 0 then Z.max (n + start) 0 else Z.min start n in
  skipn (Z.to_nat first) l.

Section Crypto.

(* hashlib.sha256(s.encode()).hexdigest() *)
Variable sha256_hex : string -> string.
(* the values of the 'data' dict of an entry *)
Variable Data : Type.
(* json.dumps({"entry_type": .., "data": .., "timestamp": ..,
   "previous_hash": ..}, sort_keys=True), for data that json can dump *)
Variable hash_string : string -> Data -> string -> option string -> string.

Record MythGraphEntry : Type := mkEntry {
  entry_type : string;
  data : Data;
  timestamp : string;
  hash : option string;
  signature : option string;
  previous_hash : option string
}.

(* the method stores previous_hash and hash in the entry and returns the
   hash *)
Definition calculate_hash (self : MythGraphEntry) (prev : option string)
  : MythGraphEntry * string :=
  let h := sha256_hex (hash_string (entry_type self) (data self)
                                   (timestamp self) prev) in
  ({| entry_type := entry_type self; data := data self;
      timestamp := timestamp self; hash := Some h;
      signature := signature self; previous_hash := prev |}, h).

Definition sign_entry (self : MythGraphEntry) (private_key : string)
  : MythGraphEntry * string :=
  let self := if truthy (hash self) then self else fst (calculate_hash self None) in
  let signature_data := render (hash self) ++ ":" ++ private_key in
  let s := sha256_hex signature_data in
  ({| entry_type := entry_type self; data := data self;
      timestamp := timestamp self; hash := hash self;
      signature := Some s; previous_hash := previous_hash self |}, s).

Definition verify_signature (self : MythGraphEntry) (public_key : string) : bool :=
  if truthy (signature self) then
    let expected_signature :=
      sha256_hex (render (hash self) ++ ":" ++ public_key) in
    opt_eqb (signature self) (Some expected_signature)
  else false.

Record MythGraphLedger : Type := mkLedger {
  entries : list MythGraphEntry;
  public_key : string;
  private_key : string;
  ledger_hash : string
}.

(* MythGraphLedger(public_key, private_key) *)
Definition new_ledger (public_key private_key : string) : MythGraphLedger :=
  {| entries := []; public_key := public_key; private_key := private_key;
     ledger_hash := zero_hash |}.

(* add_entry; [now] is datetime.utcnow().isoformat() at the call, and
   save_entry, which only writes a file and swallows its errors, is left
   out *)
Definition add_entry (self : MythGraphLedger) (entry_type : string) (data : Data)
    (now : string) : MythGraphLedger * string :=
  let entry := {| entry_type := entry_type; data := data; timestamp := now;
                  hash := None; signature := None; previous_hash := None |} in
  let prev :=
    match entries self with
    | [] => None
    | _ :: _ => Some (ledger_hash self)
    end in
  let (entry, entry_hash) := calculate_hash entry prev in
  let entry := fst (sign_entry entry (private_key self)) in
  ({| entries := (entries self ++ [entry])%list;
      public_key := public_key self; private_key := private_key self;
      ledger_hash := entry_hash |}, entry_hash).

(* get_entries; to_dict copies the six attributes of an entry *)
Definition get_entries (self : MythGraphLedger) (entry_type_filter : option string)
    (limit : option Z) : list MythGraphEntry :=
  let filtered_entries := entries self in
  let filtered_entries :=
    match entry_type_filter with
    | Some t =>
        if (t =? "")%string then filtered_entries
        else filter (fun e => (entry_type e =? t)%string) (entries self)
    | None => filtered_entries
    end in
  match limit with
  | Some n => if n =? 0 then filtered_entries
              else slice_from (- n) filtered_entries
  | None => filtered_entries
  end.

Definition get_entry_by_hash (self : MythGraphLedger) (entry_hash : string)
  : option MythGraphEntry :=
  find (fun entry => opt_eqb (hash entry) (Some entry_hash)) (entries self).

(* an element of verification_results["errors"] *)
Inductive VerifyError : Type :=
| HashMismatch (entry_index : nat) (expected : string) (actual : option string)
| SignatureFailed (entry_index : nat)
| PreviousHashMismatch (entry_index : nat) (expected actual : option string).

(* verification_results without "integrity_score", which is a float *)
Record VerificationResults : Type := mkResults {
  total_entries : Z;
  verified_entries : Z;
  failed_entries : Z;
  errors : list VerifyError
}.

(* the state of the loop of verify_ledger_integrity: previous_hash, the
   results so far and the entries already visited, as the loop leaves
   them *)
Record VerifyState : Type := mkVerifyState {
  vs_previous_hash : option string;
  vs_verified : Z;
  vs_failed : Z;
  vs_errors : list VerifyError;
  vs_entries : list MythGraphEntry
}.

(* the body of the loop, for the entry at index [i] *)
Definition verify_entry (public_key : string) (st : VerifyState)
    (ie : nat * MythGraphEntry) : VerifyState :=
  let (i, entry) := ie in
  let (entry, calculated_hash) := calculate_hash entry (vs_previous_hash st) in
  if negb (opt_eqb (Some calculated_hash) (hash entry)) then
    {| vs_previous_hash := vs_previous_hash st;
       vs_verified := vs_verified st;
       vs_failed := vs_failed st + 1;
       vs_errors := (vs_errors st
                     ++ [HashMismatch i calculated_hash (hash entry)])%list;
       vs_entries := (vs_entries st ++ [entry])%list |}
  else if negb (verify_signature entry public_key) then
    {| vs_previous_hash := vs_previous_hash st;
       vs_verified := vs_verified st;
       vs_failed := vs_failed st + 1;
       vs_errors := (vs_errors st ++ [SignatureFailed i])%list;
       vs_entries := (vs_entries st ++ [entry])%list |}
  else if (0 <? i)%nat
          && negb (opt_eqb (previous_hash entry) (vs_previous_hash st)) then
    {| vs_previous_hash := vs_previous_hash st;
       vs_verified := vs_verified st;
       vs_failed := vs_failed st + 1;
       vs_errors := (vs_errors st
                     ++ [PreviousHashMismatch i (vs_previous_hash st)
                                              (previous_hash entry)])%list;
       vs_entries := (vs_entries st ++ [entry])%list |}
  else
    {| vs_previous_hash := hash entry;
       vs_verified := vs_verified st + 1;
       vs_failed := vs_failed st;
       vs_errors := vs_errors st;
       vs_entries := (vs_entries st ++ [entry])%list |}.

(* verify_ledger_integrity: the results, and the ledger as the calls of
   calculate_hash leave it *)
Definition verify_ledger_integrity (self : MythGraphLedger)
  : VerificationResults * MythGraphLedger :=
  let st :=
    fold_left (verify_entry (public_key self))
              (combine (seq 0 (List.length (entries self))) (entries self))
              {| vs_previous_hash := None; vs_verified := 0; vs_failed := 0;
                 vs_errors := []; vs_entries := [] |} in
  ({| total_entries := Z.of_nat (List.length (entries self));
      verified_entries := vs_verified st;
      failed_entries := vs_failed st;
      errors := vs_errors st |},
   {| entries := vs_entries st; public_key := public_key self;
      private_key := private_key self; ledger_hash := ledger_hash self |}).

(* the ledger after a sequence of add_entry calls on a new ledger *)
Definition build (public_key private_key : string)
    (adds : list (string * Data * string)) : MythGraphLedger :=
  fold_left (fun l a => fst (add_entry l (fst (fst a)) (snd (fst a)) (snd a)))
            adds (new_ledger public_key private_key).

(* the entries are chained from [prev]: each holds the hash of the one
   before it, the hash of its own content and the signature of that hash *)
Fixpoint chained (key : string) (prev : option string)
    (es : list MythGraphEntry) : Prop :=
  match es with
  | [] => True
  | e :: rest =>
      previous_hash e = prev /\
      hash e = Some (sha256_hex (hash_string (entry_type e) (data e)
                                             (timestamp e) prev)) /\
      signature e = Some (sha256_hex (render (hash e) ++ ":" ++ key)) /\
      chained key (hash e) rest
  end.

(* the hash of the last entry, or [prev] when there is no entry *)
Definition last_hash (prev : option string) (es : list MythGraphEntry)
  : option string :=
  fold_left (fun _ e => hash e) es prev.

(* what add_entry keeps true of a ledger: its entries are chained with its
   private key, and ledger_hash is the hash of the last one *)
Definition well_chained (self : MythGraphLedger) : Prop :=
  chained (private_key self) None (entries self) /\
  match entries self with
  | [] => True
  | _ :: _ => last_hash None (entries self) = Some (ledger_hash self)
  end.

(* the type, data and timestamp an entry was added with *)
Definition added_as (e : MythGraphEntry) : string * Data * string :=
  (entry_type e, data e, timestamp e).

(* the entries a call of get_entries starts from, before the limit *)
Definition entries_of_type (self : MythGraphLedger) (entry_type_filter : option string)
  : list MythGraphEntry :=
  get_entries self entry_type_filter None.

End Crypto.

Arguments mkEntry {Data} _ _ _ _ _ _.
Arguments entry_type {Data} _.
Arguments data {Data} _.
Arguments timestamp {Data} _.
Arguments hash {Data} _.
Arguments signature {Data} _.
Arguments previous_hash {Data} _.
Arguments entries {Data} _.
Arguments public_key {Data} _.
Arguments private_key {Data} _.
Arguments ledger_hash {Data} _.

End Ledger.

(** ** Dictionaries *)

Section DictFacts.
Context {V : Type}.

Lemma get_In (k : string) (d : dict V) (v : V) :
  PyDict.get k d = Some v -> In (k, v) d.
Proof.
  induction d as [|[k' v'] d IH]; simpl; [discriminate|].
  destruct (String.eqb_spec k' k) as [->|_].
  - intros [= ->]. now left.
  - intros H. right. auto.
Qed.

Lemma Forall_values_update (P : V -> Prop) (k : string) (f : V -> V) (d : dict V) :
  (forall v, P v -> P (f v)) ->
  Forall P (PyDict.values d) -> Forall P (PyDict.values (PyDict.update k f d)).
Proof.
  intros Hf. induction d as [|[k' v'] d IH]; simpl; [constructor|].
  intros H. inversion H as [|? ? Hv Hd]; subst.
  destruct (k' =? k)%string; simpl; constructor; auto.
Qed.

Lemma Forall_values_set (P : V -> Prop) (k : string) (v : V) (d : dict V) :
  P v -> Forall P (PyDict.values d) -> Forall P (PyDict.values (PyDict.set k v d)).
Proof.
  intros Hv Hd. unfold PyDict.set. destruct (PyDict.mem k d).
  - (* the key is present: its value is overwritten in place *)
    clear -Hv Hd. induction d as [|[k' v'] d IH]; simpl; [constructor|].
    inversion Hd; subst.
    destruct (k' =? k)%string; simpl; constructor; auto.
  - unfold PyDict.values. rewrite map_app. apply Forall_app. split; [exact Hd|].
    simpl. constructor; [exact Hv|constructor].
Qed.

End DictFacts.

(** ** The decoder *)

Section Lookup.
Context {E : Type} (id_of : E -> Z).

Lemma find_by_id_present (table : dict E) (wanted : Z) :
  id_present id_of table wanted = true ->
  exists e, find_by_id id_of table wanted = Some e /\ id_of e = wanted.
Proof.
  unfold id_present, find_by_id.
  induction table as [|[k e] table IH]; simpl; [discriminate|].
  destruct (Z.eqb_spec (id_of e) wanted) as [Heq|Hne]; simpl.
  - intros _. exists e. auto.
  - exact IH.
Qed.

Lemma find_by_id_absent (table : dict E) (wanted : Z) :
  id_present id_of table wanted = false ->
  find_by_id id_of table wanted = None.
Proof.
  unfold id_present, find_by_id.
  induction table as [|[k e] table IH]; simpl; [reflexivity|].
  destruct (id_of e =? wanted); simpl; [discriminate|exact IH].
Qed.

Lemma id_present_In (table : dict E) (k : string) (e : E) :
  In (k, e) table -> id_present id_of table (id_of e) = true.
Proof.
  intros Hin. unfold id_present. apply existsb_exists.
  exists (k, e). split; [exact Hin|]. simpl. apply Z.eqb_refl.
Qed.

Lemma id_present_exists (table : dict E) (wanted : Z) :
  id_present id_of table wanted = true ->
  exists k e, In (k, e) table /\ id_of e = wanted.
Proof.
  unfold id_present. intros H. apply existsb_exists in H.
  destruct H as [[k e] [Hin Heq]]. exists k, e. split; [exact Hin|].
  simpl in Heq. now apply Z.eqb_eq.
Qed.

End Lookup.

Section Decoder.
Variables (pats : dict PatternEntry) (sems : dict SemanticEntry).

Lemma decompress_item_resolved (item : Item) :
  item_resolves pats sems item = true ->
  exists node, decompress_item pats sems item = Some node
               /\ n_line_number node = item_line_number item.
Proof.
  destruct item as [pid ln|sid ln|ty v ln]; simpl; intros H.
  - destruct (find_by_id_present pe_id pats pid H) as [e [-> _]].
    eexists. split; reflexivity.
  - destruct (find_by_id_present se_id sems sid H) as [e [-> _]].
    eexists. split; reflexivity.
  - eexists. split; reflexivity.
Qed.

Lemma decompress_item_dangling (item : Item) :
  item_resolves pats sems item = false ->
  decompress_item pats sems item = None.
Proof.
  destruct item as [pid ln|sid ln|ty v ln]; simpl; intros H.
  - now rewrite (find_by_id_absent pe_id pats pid H).
  - now rewrite (find_by_id_absent se_id sems sid H).
  - discriminate.
Qed.

Lemma decompress_item_line_number (item : Item) (node : Node) :
  decompress_item pats sems item = Some node ->
  n_line_number node = item_line_number item.
Proof.
  destruct item as [pid ln|sid ln|ty v ln]; simpl.
  - destruct (find_by_id pe_id pats pid); [|discriminate]. now intros [= <-].
  - destruct (find_by_id se_id sems sid); [|discriminate]. now intros [= <-].
  - now intros [= <-].
Qed.

(* the decoder passes over the records that do not resolve *)
Lemma decompress_items_filter (items : list Item) :
  decompress_items pats sems items
  = decompress_items pats sems (filter (item_resolves pats sems) items).
Proof.
  induction items as [|item items IH]; simpl; [reflexivity|].
  destruct (item_resolves pats sems item) eqn:Hr; simpl.
  - destruct (decompress_item pats sems item); now rewrite IH.
  - now rewrite (decompress_item_dangling item Hr).
Qed.

(* on records that all resolve, the decoder yields one node per record, with
   the record's line number *)
Lemma decompress_items_resolved (items : list Item) :
  forallb (item_resolves pats sems) items = true ->
  map n_line_number (decompress_items pats sems items)
  = map item_line_number items.
Proof.
  induction items as [|item items IH]; simpl; [reflexivity|].
  intros H. apply andb_true_iff in H. destruct H as [Hi Hr].
  destruct (decompress_item_resolved item Hi) as [node [-> Hln]].
  simpl. now rewrite Hln, IH.
Qed.

Lemma decompress_items_length (items : list Item) :
  List.length (decompress_items pats sems items)
  = List.length (filter (item_resolves pats sems) items).
Proof.
  rewrite decompress_items_filter.
  rewrite <- (length_map n_line_number), decompress_items_resolved.
  - now rewrite length_map.
  - apply forallb_forall. intros x Hx. now apply filter_In in Hx.
Qed.

End Decoder.

Lemma filter_length_lt {A : Type} (f : A -> bool) (l : list A) :
  forallb f l = false -> (List.length (filter f l) < List.length l)%nat.
Proof.
  induction l as [|a l IH]; simpl; [discriminate|].
  destruct (f a); simpl.
  - intros H. apply IH in H. lia.
  - intros _. pose proof (filter_length_le f l). lia.
Qed.

Lemma filter_all {A : Type} (f : A -> bool) (l : list A) :
  forallb f l = true -> filter f l = l.
Proof.
  induction l as [|a l IH]; simpl; [reflexivity|].
  destruct (f a); simpl; [|discriminate]. intros H. now rewrite IH.
Qed.

Lemma simulate_decompression_records (doc : CompressedData) :
  simulate_decompression doc
  = decompress_items (pattern_table doc) (semantic_table doc) (records doc).
Proof.
  unfold simulate_decompression, records, pattern_table, semantic_table.
  destruct (data doc); reflexivity.
Qed.

Lemma valid_decode_line_numbers (doc : CompressedData) :
  valid_document doc = true ->
  map n_line_number (simulate_decompression doc)
  = map item_line_number (records doc).
Proof.
  intros H. rewrite simulate_decompression_records.
  now apply decompress_items_resolved.
Qed.

Lemma valid_decode_length (doc : CompressedData) :
  valid_document doc = true ->
  List.length (simulate_decompression doc) = List.length (records doc).
Proof.
  intros H. rewrite <- (length_map n_line_number), valid_decode_line_numbers by exact H.
  apply length_map.
Qed.

(** ** The encoder *)

Lemma str_in_In (s : string) (l : list string) :
  str_in s l = true <-> In s l.
Proof.
  unfold str_in. rewrite existsb_exists. split.
  - intros [x [Hin Heq]]. apply String.eqb_eq in Heq. now subst.
  - intros Hin. exists s. split; [exact Hin|apply String.eqb_refl].
Qed.

(* phase 2 keeps, in the pattern dictionary, only signatures counted more
   than once *)
Lemma add_pattern_counts (l : dict (Info PatternTemplate))
    (st : dict PatternEntry * Z) :
  Forall (fun e => 1 < pe_count e) (PyDict.values (fst st)) ->
  Forall (fun e => 1 < pe_count e)
         (PyDict.values (fst (fold_left add_pattern l st))).
Proof.
  revert st. induction l as [|[sig info] l IH]; intros [d c] H; simpl; [exact H|].
  apply IH. destruct (Z.ltb_spec 1 (info_count info)) as [Hlt|_]; simpl.
  - apply Forall_values_set; [exact Hlt|exact H].
  - exact H.
Qed.

(* phase 2 keeps, in the semantic dictionary, only keys counted more than
   once or whose template is a common construct *)
Lemma add_semantic_counts (l : dict (Info SemanticTemplate))
    (st : dict SemanticEntry * Z) :
  Forall (fun e => 1 < se_count e \/ In (se_semantic_type e) common_types)
         (PyDict.values (fst st)) ->
  Forall (fun e => 1 < se_count e \/ In (se_semantic_type e) common_types)
         (PyDict.values (fst (fold_left add_semantic l st))).
Proof.
  revert st. induction l as [|[key info] l IH]; intros [d c] H; simpl; [exact H|].
  apply IH.
  destruct ((1 <? info_count info) || is_common_construct (info_template info))
    eqn:Hkeep; simpl; [|exact H].
  apply Forall_values_set; [|exact H].
  apply orb_true_iff in Hkeep. destruct Hkeep as [Hc|Hc].
  - left. now apply Z.ltb_lt.
  - right. unfold is_common_construct in Hc. apply str_in_In in Hc. exact Hc.
Qed.

Lemma build_pattern_dict_counts (ps : dict (Info PatternTemplate)) :
  Forall (fun e => 1 < pe_count e) (PyDict.values (build_pattern_dict ps)).
Proof. apply add_pattern_counts. constructor. Qed.

Lemma build_semantic_dict_counts (ss : dict (Info SemanticTemplate)) :
  Forall (fun e => 1 < se_count e \/ In (se_semantic_type e) common_types)
         (PyDict.values (build_semantic_dict ss)).
Proof. apply add_semantic_counts. constructor. Qed.

(* the document built from a non-empty input, field by field *)
Lemma simulate_compression_fields (nodes : list Node) :
  nodes <> [] ->
  let pattern_dict := build_pattern_dict (fst (detect_patterns nodes)) in
  let semantic_dict := build_semantic_dict (snd (detect_patterns nodes)) in
  simulate_compression nodes
  = {| patterns := Some pattern_dict;
       semantic_patterns := Some semantic_dict;
       data := Some (map (compress_node pattern_dict semantic_dict) nodes);
       metadata :=
         Some {| total_nodes := Z.of_nat (List.length nodes);
                 pattern_count := Z.of_nat (List.length pattern_dict);
                 semantic_count := Z.of_nat (List.length semantic_dict);
                 compression_version := "5.0";
                 advanced_features := true |} |}.
Proof.
  destruct nodes as [|n ns]; [congruence|]. intros _.
  unfold simulate_compression.
  destruct (detect_patterns (n :: ns)) as [ps ss]. reflexivity.
Qed.

Lemma records_simulate_compression (nodes : list Node) :
  records (simulate_compression nodes)
  = map (compress_node (pattern_table (simulate_compression nodes))
                       (semantic_table (simulate_compression nodes))) nodes.
Proof.
  destruct nodes as [|n ns]; [reflexivity|].
  rewrite simulate_compression_fields by discriminate. reflexivity.
Qed.

(* the record emitted for a node references an entry of the dictionaries it
   was looked up in *)
Lemma compress_node_resolves (pats : dict PatternEntry)
    (sems : dict SemanticEntry) (node : Node) :
  item_resolves pats sems (compress_node pats sems node) = true.
Proof.
  unfold compress_node.
  destruct (PyDict.get (create_semantic_signature node) sems) as [sem|] eqn:Hs.
  - simpl. eapply id_present_In, get_In, Hs.
  - destruct (PyDict.get (create_compact_signature node) pats) as [pat|] eqn:Hp;
      [|reflexivity].
    destruct (1 <? pe_count pat); [|reflexivity].
    simpl. eapply id_present_In, get_In, Hp.
Qed.

Lemma compress_node_line_number (pats : dict PatternEntry)
    (sems : dict SemanticEntry) (node : Node) :
  item_line_number (compress_node pats sems node) = n_line_number node.
Proof.
  unfold compress_node.
  destruct (PyDict.get _ sems); [reflexivity|].
  destruct (PyDict.get _ pats) as [pat|]; [|reflexivity].
  destruct (1 <? pe_count pat); reflexivity.
Qed.

Lemma simulate_compression_valid (nodes : list Node) :
  valid_document (simulate_compression nodes) = true.
Proof.
  unfold valid_document. rewrite records_simulate_compression.
  apply forallb_forall. intros item Hin. apply in_map_iff in Hin.
  destruct Hin as [node [<- _]]. apply compress_node_resolves.
Qed.

Lemma round_trip_length (nodes : list Node) :
  List.length (simulate_decompression (simulate_compression nodes))
  = List.length nodes.
Proof.
  rewrite valid_decode_length by apply simulate_compression_valid.
  rewrite records_simulate_compression. apply length_map.
Qed.

(** ** Round trip *)

(** C1, as the specification states it, fails: [doc_miscounted] is valid, has
    no record and announces [total_nodes = 1]; the decoder never reads the
    metadata block and returns the empty list. *)
Lemma round_trip_count_as_stated_fails :
  valid_document doc_miscounted = true /\
  option_map total_nodes (metadata doc_miscounted) = Some 1 /\
  simulate_decompression doc_miscounted = [] /\
  ~ spec_round_trip_count.
Proof.
  repeat split; try reflexivity.
  intros H. specialize (H doc_miscounted (metadata_of 1) eq_refl eq_refl).
  discriminate H.
Qed.

(** C1 (amended): for every document whose 'S' and 'P' records all reference
    ids present in their tables, the decoder returns as many nodes as the
    document has records; and for every input, decoding the encoder's output
    returns as many nodes as the input has, which is the [total_nodes] of
    the metadata block whenever the encoder wrote one (it writes none for the
    empty input). *)
Theorem round_trip_count (doc : CompressedData) (nodes : list Node) :
  valid_document doc = true ->
  List.length (simulate_decompression doc) = List.length (records doc) /\
  List.length (simulate_decompression (simulate_compression nodes))
  = List.length nodes /\
  match metadata (simulate_compression nodes) with
  | Some m =>
      total_nodes m
      = Z.of_nat (List.length (simulate_decompression (simulate_compression nodes)))
  | None => nodes = []
  end.
Proof.
  intros Hvalid. split; [now apply valid_decode_length|].
  split; [apply round_trip_length|].
  rewrite round_trip_length.
  destruct nodes as [|n ns]; [reflexivity|].
  rewrite simulate_compression_fields by discriminate. reflexivity.
Qed.

Lemma round_trip_count_witness :
  valid_document (simulate_compression long_lines) = true /\
  List.length (simulate_decompression (simulate_compression long_lines))
  = List.length (records (simulate_compression long_lines)) /\
  List.length (simulate_decompression (simulate_compression scenario_a))
  = List.length scenario_a /\
  match metadata (simulate_compression scenario_a) with
  | Some m =>
      total_nodes m
      = Z.of_nat (List.length (simulate_decompression (simulate_compression scenario_a)))
  | None => scenario_a = []
  end.
Proof.
  split; [vm_compute; reflexivity|].
  apply (round_trip_count (simulate_compression long_lines) scenario_a).
  vm_compute; reflexivity.
Defined.

(** C2, as the specification states it, fails: [doc_dangling] has a 'P'
    record whose id is in no entry of the pattern table, and the decoder
    returns the two nodes of the other records. *)
Lemma decode_error_as_stated_fails :
  valid_document doc_dangling = false /\
  decode_outcome doc_dangling
  = Returned [ mkNode "l" "a" 1 "unknown" None; mkNode "l" "b" 3 "unknown" None ] /\
  ~ spec_decode_error.
Proof.
  repeat split; try reflexivity.
  intros H. destruct (H doc_dangling eq_refl) as [i [t Hraise]].
  discriminate Hraise.
Qed.

(** C2 (amended): for every document that contains an 'S' or 'P' record
    whose id is not present in the corresponding table, decoding raises no
    error: it passes over each such record and returns the nodes of the
    records that resolve, in order, so the result has fewer nodes than the
    document has records. *)
Theorem dangling_reference_skipped (doc : CompressedData) :
  valid_document doc = false ->
  decode_outcome doc
  = Returned (decompress_items (pattern_table doc) (semantic_table doc)
                               (resolvable_records doc)) /\
  map n_line_number (simulate_decompression doc)
  = map item_line_number (resolvable_records doc) /\
  (List.length (simulate_decompression doc) < List.length (records doc))%nat.
Proof.
  intros Hbad. unfold decode_outcome, resolvable_records.
  rewrite simulate_decompression_records.
  split; [now rewrite <- decompress_items_filter|].
  split.
  - rewrite decompress_items_filter. apply decompress_items_resolved.
    apply forallb_forall. intros x Hx. now apply filter_In in Hx.
  - rewrite decompress_items_length. now apply filter_length_lt.
Qed.

Lemma dangling_reference_skipped_witness :
  valid_document doc_dangling = false /\
  decode_outcome doc_dangling
  = Returned (decompress_items (pattern_table doc_dangling)
                               (semantic_table doc_dangling)
                               (resolvable_records doc_dangling)) /\
  map n_line_number (simulate_decompression doc_dangling)
  = map item_line_number (resolvable_records doc_dangling) /\
  (List.length (simulate_decompression doc_dangling)
   < List.length (records doc_dangling))%nat.
Proof.
  split; [reflexivity|].
  apply (dangling_reference_skipped doc_dangling). reflexivity.
Defined.

(** C5, as the specification states it, fails: the decoder drops the second
    record of [doc_dangling], so the decoded node at index 1 carries line 3
    while the record at index 1 carries line 2. *)
Lemma order_preservation_as_stated_fails :
  option_map n_line_number (nth_error (simulate_decompression doc_dangling) 1)
  = Some 3 /\
  option_map item_line_number (nth_error (records doc_dangling) 1) = Some 2 /\
  ~ spec_order_preservation.
Proof.
  repeat split; try reflexivity.
  intros H.
  specialize (H doc_dangling 1%nat (mkNode "l" "b" 3 "unknown" None) eq_refl).
  discriminate H.
Qed.

(** C5 (amended): for every document whose 'S' and 'P' records all reference
    ids present in their tables, and every index i, the i-th decoded node
    carries the line number of the i-th record; and for every input,
    the i-th node decoded from the encoder's output carries the line number
    of the i-th input node. *)
Theorem order_preservation (doc : CompressedData) (nodes : list Node) (i : nat) :
  valid_document doc = true ->
  option_map n_line_number (nth_error (simulate_decompression doc) i)
  = option_map item_line_number (nth_error (records doc) i) /\
  option_map n_line_number
    (nth_error (simulate_decompression (simulate_compression nodes)) i)
  = option_map n_line_number (nth_error nodes i).
Proof.
  intros Hvalid. split.
  - rewrite <- !nth_error_map. now rewrite valid_decode_line_numbers.
  - rewrite <- !nth_error_map.
    rewrite valid_decode_line_numbers by apply simulate_compression_valid.
    rewrite records_simulate_compression, map_map.
    f_equal. apply map_ext. intros node. apply compress_node_line_number.
Qed.

Lemma order_preservation_witness :
  valid_document (simulate_compression long_lines) = true /\
  option_map n_line_number
    (nth_error (simulate_decompression (simulate_compression long_lines)) 2)
  = option_map item_line_number
      (nth_error (records (simulate_compression long_lines)) 2) /\
  option_map n_line_number
    (nth_error (simulate_decompression (simulate_compression scenario_a)) 2)
  = option_map n_line_number (nth_error scenario_a 2).
Proof.
  split; [vm_compute; reflexivity|].
  apply (order_preservation (simulate_compression long_lines) scenario_a 2).
  vm_compute; reflexivity.
Defined.

(** C9, as the specification states it, fails: for the empty input the
    encoder returns the empty dict, which has no metadata block and hence no
    [total_nodes]. *)
Lemma empty_document_as_stated_fails :
  simulate_compression [] = empty_dict /\
  metadata (simulate_compression []) = None /\
  ~ spec_empty_document.
Proof.
  repeat split.
  intros [m [_ [_ [_ [Hm _]]]]]. discriminate Hm.
Qed.

(** C9 (amended): encoding the empty sequence yields the empty dict, which
    has none of the keys 'patterns', 'semantic_patterns', 'data' and
    'metadata' (so no record and no entry of either table); decoding that
    document returns the empty sequence.  The empty text gives the empty
    sequence of nodes. *)
Theorem empty_document :
  simulate_compression [] = empty_dict /\
  patterns (simulate_compression []) = None /\
  semantic_patterns (simulate_compression []) = None /\
  data (simulate_compression []) = None /\
  metadata (simulate_compression []) = None /\
  pattern_table (simulate_compression []) = [] /\
  semantic_table (simulate_compression []) = [] /\
  records (simulate_compression []) = [] /\
  simulate_decompression (simulate_compression []) = [] /\
  forall language, create_test_ast "" language = [].
Proof. repeat split. Qed.

(** C10: for every input, every 'S' record the encoder emits carries the id
    of an entry of the semantic table it emits and every 'P' record the id
    of an entry of the pattern table it emits; so the decoder finds a
    template for every record of an encoder-produced document and returns one
    node per record. *)
Theorem encoder_references_resolve (nodes : list Node) :
  Forall
    (fun item =>
       match item with
       | ItemS semantic_id _ =>
           exists key e,
             In (key, e) (semantic_table (simulate_compression nodes)) /\
             se_id e = semantic_id
       | ItemP pattern_id _ =>
           exists sig e,
             In (sig, e) (pattern_table (simulate_compression nodes)) /\
             pe_id e = pattern_id
       | ItemO _ _ _ => True
       end /\
       decompress_item (pattern_table (simulate_compression nodes))
                       (semantic_table (simulate_compression nodes)) item
       <> None)
    (records (simulate_compression nodes)) /\
  List.length (simulate_decompression (simulate_compression nodes))
  = List.length (records (simulate_compression nodes)).
Proof.
  split; [|apply valid_decode_length, simulate_compression_valid].
  pose proof (simulate_compression_valid nodes) as Hvalid.
  unfold valid_document in Hvalid. rewrite forallb_forall in Hvalid.
  apply Forall_forall. intros item Hin. specialize (Hvalid item Hin). split.
  - destruct item as [pid ln|sid ln|ty v ln]; simpl in Hvalid.
    + now apply id_present_exists.
    + now apply id_present_exists.
    + exact I.
  - destruct (decompress_item_resolved _ _ item Hvalid) as [node [-> _]].
    discriminate.
Qed.

(** ** Dictionaries built by the encoder *)

(** C4: for every input, no entry of the pattern table the encoder builds
    has count 1, and every entry of the semantic table has a count above 1 or
    a semantic type among function, type, control, comment and variable. *)
Theorem dictionary_minimality (nodes : list Node) :
  Forall (fun e => pe_count e <> 1)
         (PyDict.values (pattern_table (simulate_compression nodes))) /\
  Forall (fun e => 1 < se_count e \/ In (se_semantic_type e) common_types)
         (PyDict.values (semantic_table (simulate_compression nodes))).
Proof.
  destruct nodes as [|n ns]; [split; constructor|].
  rewrite simulate_compression_fields by discriminate.
  unfold pattern_table, semantic_table; simpl patterns; simpl semantic_patterns.
  unfold get_default. split.
  - eapply Forall_impl; [|apply build_pattern_dict_counts].
    intros e He. simpl in He. lia.
  - apply build_semantic_dict_counts.
Qed.

(** ** Priority of the encoder *)

(** C3: the record emitted for an input node is an 'S' record whenever the
    node's semantic signature is a key of the semantic table, whatever the
    pattern table holds for its exact signature; it is a 'P' record only
    when the semantic signature is no key of the semantic table and the
    exact signature has an entry with count above 1, and it is one then; in
    every other case it is an 'O' record with the compressed type and
    value. *)
Theorem encoder_priority (nodes : list Node) (i : nat) (node : Node) :
  nth_error nodes i = Some node ->
  exists item,
    nth_error (records (simulate_compression nodes)) i = Some item /\
    (forall sem,
        PyDict.get (create_semantic_signature node)
                   (semantic_table (simulate_compression nodes)) = Some sem ->
        item = ItemS (se_id sem) (n_line_number node)) /\
    (forall pattern_id line_number,
        item = ItemP pattern_id line_number ->
        PyDict.get (create_semantic_signature node)
                   (semantic_table (simulate_compression nodes)) = None /\
        exists pat,
          PyDict.get (create_compact_signature node)
                     (pattern_table (simulate_compression nodes)) = Some pat /\
          1 < pe_count pat /\
          pattern_id = pe_id pat /\ line_number = n_line_number node) /\
    (forall pat,
        PyDict.get (create_semantic_signature node)
                   (semantic_table (simulate_compression nodes)) = None ->
        PyDict.get (create_compact_signature node)
                   (pattern_table (simulate_compression nodes)) = Some pat ->
        1 < pe_count pat ->
        item = ItemP (pe_id pat) (n_line_number node)) /\
    (PyDict.get (create_semantic_signature node)
                (semantic_table (simulate_compression nodes)) = None ->
     (forall pat,
         PyDict.get (create_compact_signature node)
                    (pattern_table (simulate_compression nodes)) = Some pat ->
         pe_count pat <= 1) ->
     item = ItemO (compress_type (n_type node)) (compress_value (n_value node))
                  (n_line_number node)).
Proof.
  intros Hnth.
  rewrite records_simulate_compression.
  set (pats := pattern_table (simulate_compression nodes)).
  set (sems := semantic_table (simulate_compression nodes)).
  exists (compress_node pats sems node).
  split; [now apply map_nth_error|].
  unfold compress_node.
  destruct (PyDict.get (create_semantic_signature node) sems) as [sem|].
  - split; [|split; [|split]].
    + now intros sem' [= <-].
    + discriminate.
    + discriminate.
    + discriminate.
  - destruct (PyDict.get (create_compact_signature node) pats) as [pat|].
    + destruct (Z.ltb_spec 1 (pe_count pat)) as [Hlt|Hle];
        (split; [|split; [|split]]); try discriminate.
      * intros pid ln [= <- <-]. split; [reflexivity|].
        exists pat. repeat split. exact Hlt.
      * now intros pat' _ [= <-] _.
      * intros _ Hall. specialize (Hall pat eq_refl). lia.
      * intros pat' _ [= <-] Hlt. lia.
      * reflexivity.
    + split; [|split; [|split]]; try discriminate. reflexivity.
Qed.

Lemma encoder_priority_witness :
  nth_error scenario_a 2 = Some (line_node "// note" 3 "demo") /\
  PyDict.get (create_compact_signature (line_node "// note" 3 "demo"))
             (pattern_table (simulate_compression scenario_a))
  = Some (mkPatternEntry 1 (mkPatternTemplate "line" "// note" "demo") 2) /\
  nth_error (records (simulate_compression scenario_a)) 2 = Some (ItemS 1 3).
Proof.
  split; [reflexivity|]. split; [vm_compute; reflexivity|].
  destruct (encoder_priority scenario_a 2 (line_node "// note" 3 "demo") eq_refl)
    as [item [Hitem [Hsem _]]].
  rewrite Hitem. f_equal.
  apply (Hsem (mkSemanticEntry 1
                 (mkSemanticTemplate "line" "// note" "demo" "comment") 2 "comment")).
  vm_compute; reflexivity.
Defined.

(** ** The value compressor *)

Lemma drop_length (n : nat) (s : string) :
  String.length (drop n s) = (String.length s - n)%nat.
Proof.
  revert s. induction n as [|n IH]; intros s; simpl.
  - now rewrite Nat.sub_0_r.
  - destruct s as [|c s]; simpl; [reflexivity|apply IH].
Qed.

Lemma prefixes_nonempty (prefix : string) :
  In prefix prefixes_to_remove -> (0 < String.length prefix)%nat.
Proof.
  unfold prefixes_to_remove. simpl.
  intros H. repeat (destruct H as [<-|H]; [simpl; lia|]). contradiction.
Qed.

Lemma remove_prefix_drop (compressed prefix : string) :
  remove_prefix compressed prefix <> compressed ->
  remove_prefix compressed prefix = drop (String.length prefix) compressed.
Proof.
  unfold remove_prefix.
  destruct (startswith (lower compressed) prefix
            && (String.length prefix + 2 <? String.length compressed)%nat);
    [reflexivity|congruence].
Qed.

Lemma remove_prefix_strips (compressed prefix : string) :
  (0 < String.length prefix)%nat ->
  remove_prefix compressed prefix <> compressed <->
  startswith (lower compressed) prefix = true /\
  (String.length prefix + 2 < String.length compressed)%nat.
Proof.
  intros Hpos. unfold remove_prefix.
  destruct (startswith (lower compressed) prefix) eqn:Hstart;
    rewrite ?andb_true_l, ?andb_false_l.
  - destruct (Nat.ltb_spec (String.length prefix + 2) (String.length compressed))
      as [Hlt|Hge].
    + split; [auto|]. intros _ Heq.
      apply (f_equal String.length) in Heq. rewrite drop_length in Heq. lia.
    + split; [congruence|]. intros [_ Hlt]. lia.
  - split; [congruence|]. intros [Hf _]. discriminate Hf.
Qed.

Lemma compress_value_unchanged (value : string) :
  (String.length value <= String.length (transformed value))%nat ->
  compress_value value = value.
Proof.
  intros Hlen. unfold compress_value.
  destruct (value =? "")%string; [reflexivity|].
  destruct (Nat.ltb_spec (String.length (transformed value))
                         (String.length value)); [lia|reflexivity].
Qed.

Lemma compress_value_shorter (value : string) :
  (String.length (transformed value) < String.length value)%nat ->
  compress_value value = transformed value.
Proof.
  intros Hlen. unfold compress_value.
  destruct (String.eqb_spec value "") as [Hv|_].
  - rewrite Hv in Hlen. cbn [String.length] in Hlen. lia.
  - destruct (Nat.ltb_spec (String.length (transformed value))
                           (String.length value)); [reflexivity|lia].
Qed.

(** C7, as the specification states it, fails: "getFoo" begins with "get"
    and the three characters that remain do not exceed 3 + 2, yet the
    prefix is stripped: the code compares the length of the whole text, not
    of the remainder, with the prefix length plus 2. *)
Lemma prefix_rule_as_stated_fails :
  compress_value "getFoo" = "Foo" /\
  remove_prefix "getFoo" "get" = "Foo" /\
  String.length (drop (String.length "get") "getFoo") = 3%nat /\
  ~ spec_prefix_rule.
Proof.
  repeat split; try (vm_compute; reflexivity).
  intros H. destruct (H "getFoo" "get") as [Hstrip _]; [simpl; auto|].
  destruct Hstrip as [_ Hlen]; [vm_compute; discriminate|].
  vm_compute in Hlen. lia.
Qed.

(** C7 (amended): the value compressor first applies the abbreviation table
    and then tries the prefixes get, set, is, has, can, should, will, do in
    this order, each on the working text the one before it left.  It strips
    a prefix exactly when the lower-cased working text begins with that
    prefix and the length of the whole working text exceeds the prefix length
    plus 2, and what is left is the working text after the prefix.  It
    returns the result of these steps when that is strictly shorter than the
    original text, and the original text unchanged otherwise. *)
Theorem prefix_rule (compressed prefix value : string) :
  In prefix ["get"; "set"; "is"; "has"; "can"; "should"; "will"; "do"] ->
  (remove_prefix compressed prefix <> compressed <->
   startswith (lower compressed) prefix = true /\
   (String.length prefix + 2 < String.length compressed)%nat) /\
  (remove_prefix compressed prefix <> compressed ->
   remove_prefix compressed prefix = drop (String.length prefix) compressed) /\
  compress_value value
  = (let working := fold_left apply_pattern common_patterns value in
     let stripped :=
       remove_prefix
         (remove_prefix
            (remove_prefix
               (remove_prefix
                  (remove_prefix
                     (remove_prefix
                        (remove_prefix (remove_prefix working "get") "set")
                        "is")
                     "has")
                  "can")
               "should")
            "will")
         "do" in
     if (String.length stripped <? String.length value)%nat
     then stripped else value) /\
  ((String.length value <= String.length (transformed value))%nat ->
   compress_value value = value) /\
  ((String.length (transformed value) < String.length value)%nat ->
   compress_value value = transformed value).
Proof.
  intros Hin. pose proof (prefixes_nonempty prefix Hin) as Hpos.
  split; [|split; [|split; [|split]]].
  - apply remove_prefix_strips. exact Hpos.
  - apply remove_prefix_drop.
  - cbv zeta. unfold compress_value, transformed, prefixes_to_remove.
    cbn [fold_left].
    destruct (String.eqb_spec value "") as [->|Hne]; [|reflexivity].
    match goal with
    | |- _ = if ?b then _ else _ => destruct b eqn:Hb
    end; [|reflexivity].
    apply Nat.ltb_lt in Hb. cbn [String.length] in Hb. lia.
  - apply compress_value_unchanged.
  - apply compress_value_shorter.
Qed.

Lemma prefix_rule_witness :
  In "is" ["get"; "set"; "is"; "has"; "can"; "should"; "will"; "do"] /\
  remove_prefix "isFoo" "is" = "Foo" /\
  remove_prefix "isOk" "is" = "isOk" /\
  compress_value "isOk" = "isOk" /\
  compress_value "isFoo" = "Foo" /\
  compress_value "setValue" = "Value" /\
  compress_value "shouldRun" = "Run" /\
  compress_value "getsetXyz" = "Xyz".
Proof.
  assert (Hin : In "is" ["get"; "set"; "is"; "has"; "can"; "should"; "will"; "do"])
    by (simpl; auto).
  split; [exact Hin|].
  destruct (prefix_rule "isFoo" "is" "isOk" Hin)
    as [[_ Hstrip] [Hdrop [_ [Hsame _]]]].
  destruct (prefix_rule "isOk" "is" "isFoo" Hin)
    as [[Hkeep _] [_ [_ [_ Hshort]]]].
  destruct (prefix_rule "isOk" "is" "setValue" Hin) as [_ [_ [Hset _]]].
  destruct (prefix_rule "isOk" "is" "shouldRun" Hin) as [_ [_ [Hshould _]]].
  destruct (prefix_rule "isOk" "is" "getsetXyz" Hin) as [_ [_ [Hgetset _]]].
  split; [apply Hdrop, Hstrip; split; [reflexivity|simpl; lia]|].
  split.
  - destruct (string_dec (remove_prefix "isOk" "is") "isOk") as [Heq|Hne];
      [exact Heq|].
    apply Hkeep in Hne. destruct Hne as [_ Hlen]. simpl in Hlen. lia.
  - split; [apply Hsame; vm_compute; lia|].
    split; [rewrite Hshort; vm_compute; [reflexivity|lia]|].
    split; [rewrite Hset; vm_compute; reflexivity|].
    split; [rewrite Hshould; vm_compute; reflexivity|].
    rewrite Hgetset; vm_compute; reflexivity.
Defined.

(** ** Signatures and letter case *)

Lemma same_up_to_case_lower (s t : string) :
  same_up_to_case s t -> lower s = lower t.
Proof.
  induction 1 as [|a b s t Hab _ IH]; [reflexivity|].
  simpl. rewrite IH. f_equal.
  destruct Hab as [->|[_ [_ Hl]]]; [reflexivity|exact Hl].
Qed.

Lemma same_up_to_case_take (n : nat) (s t : string) :
  same_up_to_case s t -> same_up_to_case (take n s) (take n t).
Proof.
  intros H. revert n. induction H as [|a b s t Hab _ IH]; intros n.
  - destruct n; constructor.
  - destruct n as [|n]; simpl; constructor; auto.
Qed.

Lemma same_up_to_case_length (s t : string) :
  same_up_to_case s t -> String.length s = String.length t.
Proof. induction 1; simpl; congruence. Qed.

Lemma take_all (n : nat) (s : string) :
  (String.length s <= n)%nat -> take n s = s.
Proof.
  revert n. induction s as [|c s IH]; intros n Hn.
  - now destruct n.
  - destruct n as [|n]; simpl in *; [lia|]. rewrite IH; [reflexivity|lia].
Qed.

(* the preview taken by create_compact_signature is the first 30 characters *)
Lemma create_compact_signature_take (node : Node) :
  create_compact_signature node
  = n_type node ++ ":" ++ take 30 (n_value node) ++ ":" ++ n_language node.
Proof.
  unfold create_compact_signature.
  destruct (Nat.ltb_spec 30 (String.length (n_value node))) as [_|Hle];
    [reflexivity|].
  now rewrite take_all.
Qed.

Lemma append_cancel_l (p a b : string) : p ++ a = p ++ b -> a = b.
Proof.
  induction p as [|c p IH]; simpl; [auto|]. intros [= H]. auto.
Qed.

Lemma append_cancel_r (a b r : string) :
  String.length a = String.length b -> a ++ r = b ++ r -> a = b.
Proof.
  revert b. induction a as [|c a IH]; intros [|d b]; simpl; try discriminate.
  - reflexivity.
  - intros [= Hlen] [= -> Happ]. f_equal. auto.
Qed.

(* the semantic signature reads the text through lower() only *)
Lemma create_semantic_signature_lower (n1 n2 : Node) :
  lower (n_value n1) = lower (n_value n2) ->
  n_language n1 = n_language n2 ->
  create_semantic_signature n1 = create_semantic_signature n2.
Proof.
  intros Hv Hl. unfold create_semantic_signature. now rewrite Hv, Hl.
Qed.

(** C8, as the specification states it, fails: the texts "A" and "a" differ
    in letter case only and have different exact signatures;
    [create_compact_signature] copies the text as it is. *)
Lemma case_insensitive_as_stated_fails :
  nodes_differ_only_in_case (line_node "A" 1 "demo") (line_node "a" 1 "demo") /\
  create_compact_signature (line_node "A" 1 "demo") = "line:A:demo" /\
  create_compact_signature (line_node "a" 1 "demo") = "line:a:demo" /\
  ~ spec_case_insensitive.
Proof.
  assert (Hcase : nodes_differ_only_in_case (line_node "A" 1 "demo")
                                            (line_node "a" 1 "demo")).
  { repeat split. simpl. constructor; [|constructor].
    right. repeat split. }
  split; [exact Hcase|]. split; [reflexivity|]. split; [reflexivity|].
  intros H. destruct (H _ _ Hcase) as [Hsig _]. discriminate Hsig.
Qed.

(** C8 (amended): the semantic signature ignores the case of letters: two
    nodes that are identical except that, at some positions of their text,
    one has a letter among A-Z, U+00C0-U+00D6, U+00D8-U+00DE where the other
    has its lower-case form (a-z, U+00E0-U+00F6, U+00F8-U+00FE) have the same
    semantic signature.  The exact signature keeps the case of the text: two
    such nodes have the same exact signature exactly when the first 30
    characters of their texts are the same, case included. *)
Theorem signature_case (n1 n2 : Node) :
  nodes_differ_only_in_case n1 n2 ->
  create_semantic_signature n1 = create_semantic_signature n2 /\
  (create_compact_signature n1 = create_compact_signature n2 <->
   take 30 (n_value n1) = take 30 (n_value n2)).
Proof.
  intros [Hty [_ [Hlang [_ Hval]]]]. split.
  - apply create_semantic_signature_lower; [|exact Hlang].
    now apply same_up_to_case_lower.
  - rewrite !create_compact_signature_take, Hty, Hlang. split.
    + intros H. apply append_cancel_l, append_cancel_l in H.
      eapply append_cancel_r; [|exact H].
      now apply same_up_to_case_length, same_up_to_case_take.
    + now intros ->.
Qed.

Lemma signature_case_witness :
  nodes_differ_only_in_case
    (line_node (String (ascii_of_nat 201) "T IF X") 1 "demo")
    (line_node (String (ascii_of_nat 233) "t if x") 1 "demo") /\
  create_semantic_signature
    (line_node (String (ascii_of_nat 201) "T IF X") 1 "demo")
  = create_semantic_signature
      (line_node (String (ascii_of_nat 233) "t if x") 1 "demo") /\
  (create_compact_signature
     (line_node (String (ascii_of_nat 201) "T IF X") 1 "demo")
   = create_compact_signature
       (line_node (String (ascii_of_nat 233) "t if x") 1 "demo") <->
   take 30 (String (ascii_of_nat 201) "T IF X")
   = take 30 (String (ascii_of_nat 233) "t if x")).
Proof.
  assert (Hcase : nodes_differ_only_in_case
                    (line_node (String (ascii_of_nat 201) "T IF X") 1 "demo")
                    (line_node (String (ascii_of_nat 233) "t if x") 1 "demo")).
  { repeat split. cbn [n_value line_node].
    repeat (constructor; [first [now left | right; repeat split]|]).
    constructor. }
  split; [exact Hcase|].
  apply (signature_case
           (line_node (String (ascii_of_nat 201) "T IF X") 1 "demo")
           (line_node (String (ascii_of_nat 233) "t if x") 1 "demo")).
  exact Hcase.
Defined.

Lemma code_inj (a b : ascii) : nat_of_ascii a = nat_of_ascii b -> a = b.
Proof.
  intros H. rewrite <- (ascii_nat_embedding a), <- (ascii_nat_embedding b).
  now rewrite H.
Qed.

Lemma is_upper_code (c : ascii) :
  is_upper c = true <->
  (65 <= nat_of_ascii c <= 90 \/ 192 <= nat_of_ascii c <= 214
   \/ 216 <= nat_of_ascii c <= 222)%nat.
Proof.
  unfold is_upper, between.
  rewrite !orb_true_iff, !andb_true_iff, !Nat.leb_le. tauto.
Qed.

Lemma lower_char_code (c : ascii) :
  nat_of_ascii (lower_char c)
  = if is_upper c then (nat_of_ascii c + 32)%nat else nat_of_ascii c.
Proof.
  unfold lower_char. destruct (is_upper c) eqn:Hu; [|reflexivity].
  apply is_upper_code in Hu. apply nat_ascii_embedding. lia.
Qed.

Lemma is_upper_cased (c : ascii) : is_upper c = true -> is_cased c = true.
Proof. intros H. unfold is_cased. now rewrite H. Qed.

Lemma lower_char_cased (c : ascii) :
  is_upper c = true -> is_cased (lower_char c) = true.
Proof.
  intros Hu. pose proof (lower_char_code c) as Hc. rewrite Hu in Hc.
  apply is_upper_code in Hu.
  assert (Hl : is_lower (lower_char c) = true).
  { unfold is_lower, between. rewrite Hc.
    rewrite !orb_true_iff, !andb_true_iff, !Nat.leb_le. lia. }
  unfold is_cased. rewrite Hl, orb_true_r. reflexivity.
Qed.

Lemma lower_char_idem (c : ascii) : lower_char (lower_char c) = lower_char c.
Proof.
  apply code_inj. rewrite (lower_char_code (lower_char c)).
  destruct (is_upper (lower_char c)) eqn:Hu; [|reflexivity].
  apply is_upper_code in Hu. rewrite lower_char_code in Hu.
  destruct (is_upper c) eqn:Hc; [apply is_upper_code in Hc; lia|].
  apply is_upper_code in Hu. congruence.
Qed.

(* the relation of C8 relates a letter to its other case and to nothing
   else *)
Lemma same_char_up_to_case_spec (a b : ascii) :
  same_char_up_to_case a b <->
  a = b \/ (is_upper a = true /\ b = lower_char a)
        \/ (is_upper b = true /\ a = lower_char b).
Proof.
  unfold same_char_up_to_case. split.
  - intros [Heq|[_ [_ Hl]]]; [now left|].
    apply (f_equal nat_of_ascii) in Hl. rewrite !lower_char_code in Hl.
    destruct (is_upper a) eqn:Hua, (is_upper b) eqn:Hub.
    + left. apply code_inj. lia.
    + right. left. split; [reflexivity|].
      apply code_inj. rewrite lower_char_code, Hua. lia.
    + right. right. split; [reflexivity|].
      apply code_inj. rewrite lower_char_code, Hub. lia.
    + left. now apply code_inj.
  - intros [Heq|[[Hu ->]|[Hu ->]]]; [now left| |]; right.
    + split; [now apply is_upper_cased|].
      split; [now apply lower_char_cased|]. now rewrite lower_char_idem.
    + split; [now apply lower_char_cased|].
      split; [now apply is_upper_cased|]. now rewrite lower_char_idem.
Qed.

(* the tables on characters above U+007F: lower() of A with grave, strip()
   of the no-break space and of NEL, the multiplication sign left alone, the
   upper and title case of sharp s, and a line that ends in a no-break
   space *)
Lemma latin1_tables :
  lower (String (ascii_of_nat 192) "B") = String (ascii_of_nat 224) "b" /\
  strip (String (ascii_of_nat 160) ("x" ++ String (ascii_of_nat 133) "")) = "x" /\
  lower (String (ascii_of_nat 215) "") = String (ascii_of_nat 215) "" /\
  upper (String (ascii_of_nat 223) "") = "SS" /\
  title (String (ascii_of_nat 223) "a") = "Ssa" /\
  create_semantic_signature
    (line_node ("if " ++ String (ascii_of_nat 160) "") 1 "L") = "other:L" /\
  create_test_ast (String (ascii_of_nat 160) "") "L" = [].
Proof. vm_compute. repeat split. Qed.

(** ** The lossy semantic merge *)

(* two nodes with one semantic signature share one entry of the semantic
   table, whose template is made from the first node; both are emitted as
   'S' records and decoded to the template's text *)
Lemma semantic_merge (n1 n2 : Node) :
  create_semantic_signature n1 = create_semantic_signature n2 ->
  semantic_table (simulate_compression [n1; n2])
  = [ (create_semantic_signature n1,
       {| se_id := 0;
          se_template :=
            {| st_type := n_type n1;
               st_value := compress_value (n_value n1);
               st_language := n_language n1;
               st_semantic_type := detect_semantic_type n1 |};
          se_count := 2;
          se_semantic_type := detect_semantic_type n1 |}) ] /\
  records (simulate_compression [n1; n2])
  = [ ItemS 0 (n_line_number n1); ItemS 0 (n_line_number n2) ] /\
  map n_value (simulate_decompression (simulate_compression [n1; n2]))
  = [ compress_value (n_value n1); compress_value (n_value n1) ].
Proof.
  intros Hkey.
  assert (Hsem : semantic_table (simulate_compression [n1; n2])
                 = [ (create_semantic_signature n1,
                      {| se_id := 0;
                         se_template :=
                           {| st_type := n_type n1;
                              st_value := compress_value (n_value n1);
                              st_language := n_language n1;
                              st_semantic_type := detect_semantic_type n1 |};
                         se_count := 2;
                         se_semantic_type := detect_semantic_type n1 |}) ]).
  { rewrite simulate_compression_fields by discriminate.
    unfold semantic_table, detect_patterns. cbn [semantic_patterns get_default fold_left].
    unfold count_node at 2. cbn [PyDict.mem PyDict.get PyDict.set app].
    unfold count_node. cbn [snd].
    rewrite <- Hkey. unfold PyDict.mem. cbn [PyDict.get].
    rewrite String.eqb_refl. cbn [PyDict.update]. rewrite String.eqb_refl.
    reflexivity. }
  assert (Hrec : records (simulate_compression [n1; n2])
                 = [ ItemS 0 (n_line_number n1); ItemS 0 (n_line_number n2) ]).
  { rewrite records_simulate_compression, Hsem. cbn [map].
    unfold compress_node. rewrite <- Hkey. cbn [PyDict.get].
    rewrite String.eqb_refl. reflexivity. }
  split; [exact Hsem|]. split; [exact Hrec|].
  rewrite simulate_decompression_records, Hsem, Hrec. reflexivity.
Qed.

(** C6: with any common language tag, the lines "fn foo() {}" and
    "fn bar() {}" both have the semantic signature function_decl for that
    language, the encoder gives them one semantic entry, whose template text
    is that of the first line, and decoding the encoder's output returns two
    nodes with that same text, although the two input texts differ. *)
Theorem lossy_semantic_merge (language : string) :
  create_semantic_signature (line_node "fn foo() {}" 1 language)
  = "function_decl:" ++ language /\
  create_semantic_signature (line_node "fn bar() {}" 2 language)
  = "function_decl:" ++ language /\
  semantic_table
    (simulate_compression
       [line_node "fn foo() {}" 1 language; line_node "fn bar() {}" 2 language])
  = [ ("function_decl:" ++ language,
       mkSemanticEntry 0
         (mkSemanticTemplate "line" "fn foo() {}" language "function") 2
         "function") ] /\
  records
    (simulate_compression
       [line_node "fn foo() {}" 1 language; line_node "fn bar() {}" 2 language])
  = [ItemS 0 1; ItemS 0 2] /\
  map n_value
    (simulate_decompression
       (simulate_compression
          [line_node "fn foo() {}" 1 language; line_node "fn bar() {}" 2 language]))
  = ["fn foo() {}"; "fn foo() {}"] /\
  n_value (line_node "fn foo() {}" 1 language)
  <> n_value (line_node "fn bar() {}" 2 language).
Proof.
  assert (H1 : create_semantic_signature (line_node "fn foo() {}" 1 language)
               = "function_decl:" ++ language) by reflexivity.
  assert (H2 : create_semantic_signature (line_node "fn bar() {}" 2 language)
               = "function_decl:" ++ language) by reflexivity.
  destruct (semantic_merge (line_node "fn foo() {}" 1 language)
                           (line_node "fn bar() {}" 2 language))
    as [Hsem [Hrec Hdec]]; [now rewrite H1, H2|].
  split; [exact H1|]. split; [exact H2|].
  split; [rewrite Hsem, H1; reflexivity|].
  split; [exact Hrec|].
  split; [rewrite Hdec; reflexivity|].
  discriminate.
Qed.

(** ** The scenarios of the specification, evaluated *)

(* the two-line text of Scenario B, split by create_test_ast *)
Lemma create_test_ast_two_lines (language : string) :
  create_test_ast ("fn foo() {}" ++ String newline "fn bar() {}") language
  = [line_node "fn foo() {}" 1 language; line_node "fn bar() {}" 2 language].
Proof. reflexivity. Qed.

(* Scenario A: one pattern entry for "let x = 1;", and the comment lines,
   which are exact duplicates too, are emitted as 'S' records *)
Lemma scenario_a_records :
  records (simulate_compression scenario_a)
  = [ItemS 0 1; ItemS 0 2; ItemS 1 3; ItemS 0 4; ItemS 1 5] /\
  map fst (pattern_table (simulate_compression scenario_a))
  = ["line:let x = 1;:demo"; "line:// note:demo"] /\
  map fst (semantic_table (simulate_compression scenario_a))
  = ["variable_decl:demo"; "comment:demo"].
Proof. vm_compute. repeat split. Qed.

(* 'P' records are emitted when the semantic lookup misses *)
Lemma long_lines_records :
  records (simulate_compression long_lines)
  = [ItemP 0 1; ItemP 0 2; ItemO "l" "while z" 3] /\
  semantic_table (simulate_compression long_lines) = [].
Proof. vm_compute. repeat split. Qed.

(** ** Lookup after an update *)

Section DictLookup.
Context {V : Type}.

Lemma get_None_keys (k : string) (d : dict V) :
  PyDict.get k d = None <-> ~ In k (map fst d).
Proof.
  induction d as [|[k' v] d IH]; simpl; [tauto|].
  destruct (String.eqb_spec k' k) as [->|Hne].
  - split; [discriminate|]. intros H. exfalso. apply H. now left.
  - rewrite IH. split.
    + intros H [Heq|Hin]; [contradiction|auto].
    + intros H Hin. apply H. now right.
Qed.

Lemma mem_false_get (k : string) (d : dict V) :
  PyDict.mem k d = false <-> PyDict.get k d = None.
Proof.
  unfold PyDict.mem. destruct (PyDict.get k d); split; congruence.
Qed.

Lemma get_app (k : string) (d1 d2 : dict V) :
  PyDict.get k (d1 ++ d2)%list
  = match PyDict.get k d1 with
    | Some v => Some v
    | None => PyDict.get k d2
    end.
Proof.
  induction d1 as [|[k' v] d1 IH]; simpl; [reflexivity|].
  destruct (k' =? k)%string; [reflexivity|exact IH].
Qed.

Lemma get_update_same (k : string) (f : V -> V) (d : dict V) :
  PyDict.get k (PyDict.update k f d) = option_map f (PyDict.get k d).
Proof.
  induction d as [|[k' v] d IH]; simpl; [reflexivity|].
  destruct (String.eqb_spec k' k) as [->|Hne]; simpl.
  - now rewrite String.eqb_refl.
  - destruct (String.eqb_spec k' k); [contradiction|exact IH].
Qed.

Lemma get_update_other (k k' : string) (f : V -> V) (d : dict V) :
  k' <> k -> PyDict.get k (PyDict.update k' f d) = PyDict.get k d.
Proof.
  intros Hne. induction d as [|[k0 v] d IH]; simpl; [reflexivity|].
  destruct (String.eqb_spec k0 k') as [->|Hne0]; simpl.
  - destruct (String.eqb_spec k' k); [contradiction|reflexivity].
  - destruct (k0 =? k)%string; [reflexivity|exact IH].
Qed.

Lemma keys_update (k : string) (f : V -> V) (d : dict V) :
  map fst (PyDict.update k f d) = map fst d.
Proof.
  induction d as [|[k' v] d IH]; simpl; [reflexivity|].
  destruct (k' =? k)%string; simpl; [reflexivity|now rewrite IH].
Qed.

(* storing under a key that is absent appends the item *)
Lemma set_absent (k : string) (v : V) (d : dict V) :
  ~ In k (map fst d) -> PyDict.set k v d = (d ++ [(k, v)])%list.
Proof.
  intros Hk. unfold PyDict.set.
  now rewrite (proj2 (mem_false_get k d) (proj2 (get_None_keys k d) Hk)).
Qed.

Lemma get_set_same (k : string) (v : V) (d : dict V) :
  PyDict.get k (PyDict.set k v d) = Some v.
Proof.
  unfold PyDict.set, PyDict.mem.
  destruct (PyDict.get k d) as [v0|] eqn:Hget.
  - now rewrite get_update_same, Hget.
  - rewrite get_app, Hget. simpl. now rewrite String.eqb_refl.
Qed.

Lemma get_set_other (k k' : string) (v : V) (d : dict V) :
  k' <> k -> PyDict.get k (PyDict.set k' v d) = PyDict.get k d.
Proof.
  intros Hne. unfold PyDict.set. destruct (PyDict.mem k' d).
  - now apply get_update_other.
  - rewrite get_app. destruct (PyDict.get k d); [reflexivity|].
    simpl. destruct (String.eqb_spec k' k); [contradiction|reflexivity].
Qed.

Lemma keys_set_NoDup (k : string) (v : V) (d : dict V) :
  NoDup (map fst d) -> NoDup (map fst (PyDict.set k v d)).
Proof.
  intros Hnd. unfold PyDict.set, PyDict.mem.
  destruct (PyDict.get k d) eqn:Hget.
  - now rewrite keys_update.
  - rewrite map_app. simpl. apply get_None_keys in Hget.
    apply NoDup_app; [exact Hnd|repeat constructor; auto|].
    intros x Hx [<-|[]]. contradiction.
Qed.

Lemma get_first_key (k : string) (v : V) (d : dict V) :
  NoDup (map fst d) -> In (k, v) d -> PyDict.get k d = Some v.
Proof.
  induction d as [|[k' v'] d IH]; simpl; [contradiction|].
  intros Hnd Hin. inversion Hnd as [|? ? Hnotin Hnd']; subst.
  destruct (String.eqb_spec k' k) as [->|Hne].
  - destruct Hin as [[= ->]|Hin]; [reflexivity|].
    exfalso. apply Hnotin. now apply (in_map fst) in Hin.
  - destruct Hin as [[= Hk _]|Hin]; [contradiction|auto].
Qed.

End DictLookup.

(** ** Phase 1: counting *)

Section Counting.
Context {T : Type} (key : Node -> string) (tpl : Node -> T).

Lemma occurrences_cons (k : string) (a : Node) (nodes : list Node) :
  occurrences key k (a :: nodes)
  = (if (key a =? k)%string then 1 else 0) + occurrences key k nodes.
Proof.
  unfold occurrences. simpl. destruct (key a =? k)%string; simpl List.length; lia.
Qed.

Lemma occurrences_nonneg (k : string) (nodes : list Node) :
  0 <= occurrences key k nodes.
Proof. unfold occurrences. lia. Qed.

Lemma get_count_key_same (k : string) (t : T) (d : dict (Info T)) :
  PyDict.get k (count_key k t d)
  = match PyDict.get k d with
    | Some info => Some (bump info)
    | None => Some {| info_count := 1; info_template := t |}
    end.
Proof.
  unfold count_key, PyDict.mem. destruct (PyDict.get k d) eqn:Hget.
  - now rewrite get_update_same, Hget.
  - apply get_set_same.
Qed.

Lemma get_count_key_other (k k' : string) (t : T) (d : dict (Info T)) :
  k' <> k -> PyDict.get k (count_key k' t d) = PyDict.get k d.
Proof.
  intros Hne. unfold count_key. destruct (PyDict.mem k' d).
  - now apply get_update_other.
  - now apply get_set_other.
Qed.

Lemma count_key_NoDup (k : string) (t : T) (d : dict (Info T)) :
  NoDup (map fst d) -> NoDup (map fst (count_key k t d)).
Proof.
  intros Hnd. unfold count_key. destruct (PyDict.mem k d).
  - now rewrite keys_update.
  - now apply keys_set_NoDup.
Qed.

(* after the loop, a key holds the number of nodes that have it, on top of
   what it held before, and the template of the first node that had it *)
Lemma count_all_get (nodes : list Node) (d : dict (Info T)) (k : string) :
  PyDict.get k (count_all key tpl nodes d)
  = match PyDict.get k d with
    | Some info =>
        Some {| info_count := info_count info + occurrences key k nodes;
                info_template := info_template info |}
    | None =>
        match first_with key k nodes with
        | Some first =>
            Some {| info_count := occurrences key k nodes;
                    info_template := tpl first |}
        | None => None
        end
    end.
Proof.
  revert d. induction nodes as [|a nodes IH]; intros d.
  - simpl. destruct (PyDict.get k d) as [[c t]|]; [|reflexivity].
    unfold occurrences. simpl. now rewrite Z.add_0_r.
  - unfold count_all in *. cbn [fold_left]. rewrite IH.
    rewrite occurrences_cons. unfold first_with. cbn [find].
    destruct (String.eqb_spec (key a) k) as [Heq|Hne].
    + rewrite <- Heq, get_count_key_same.
      destruct (PyDict.get (key a) d) as [info|];
        cbn [bump info_count info_template].
      * f_equal. f_equal. lia.
      * reflexivity.
    + rewrite get_count_key_other by exact Hne.
      destruct (PyDict.get k d); [|reflexivity].
      f_equal.
Qed.

Lemma count_all_NoDup (nodes : list Node) (d : dict (Info T)) :
  NoDup (map fst d) -> NoDup (map fst (count_all key tpl nodes d)).
Proof.
  revert d. induction nodes as [|a nodes IH]; intros d Hnd; [exact Hnd|].
  unfold count_all in *. cbn [fold_left]. apply IH. now apply count_key_NoDup.
Qed.

End Counting.

Lemma detect_patterns_count_all (nodes : list Node) :
  detect_patterns nodes
  = (count_all create_compact_signature pattern_template_of nodes [],
     count_all create_semantic_signature semantic_template_of nodes []).
Proof.
  unfold detect_patterns, count_all.
  generalize (@nil (string * Info PatternTemplate)).
  generalize (@nil (string * Info SemanticTemplate)).
  induction nodes as [|a nodes IH]; intros ss ps; [reflexivity|].
  cbn [fold_left]. rewrite <- IH. reflexivity.
Qed.

(** ** Phase 2: numbering *)

Section Numbering.
Context {T E : Type} (keep : Info T -> bool) (mk : Z -> Info T -> E)
        (id_of : E -> Z).
Hypothesis id_of_mk : forall c info, id_of (mk c info) = c.

Variable step : dict E * Z -> string * Info T -> dict E * Z.
Hypothesis step_eq : forall d c k info,
  step (d, c) (k, info)
  = if keep info then (PyDict.set k (mk c info) d, c + 1) else (d, c).

Lemma fold_step_number_from (l : dict (Info T)) (d : dict E) (c : Z) :
  NoDup (map fst d ++ map fst l) ->
  fst (fold_left step l (d, c)) = (d ++ number_from keep mk c l)%list.
Proof.
  revert d c. induction l as [|[k info] l IH]; intros d c Hnd.
  - simpl. now rewrite app_nil_r.
  - cbn [fold_left number_from]. rewrite step_eq.
    simpl map in Hnd.
    destruct (keep info).
    + rewrite set_absent.
      * rewrite IH.
        -- now rewrite <- app_assoc.
        -- rewrite map_app, <- app_assoc. exact Hnd.
      * apply NoDup_remove_2 in Hnd. intros Hin. apply Hnd.
        apply in_or_app. now left.
    + apply IH. now apply NoDup_remove_1 in Hnd.
Qed.

Lemma number_from_keys (l : dict (Info T)) (c : Z) (k : string) :
  In k (map fst (number_from keep mk c l)) -> In k (map fst l).
Proof.
  revert c. induction l as [|[k0 info] l IH]; intros c; simpl; [auto|].
  destruct (keep info); simpl.
  - intros [Heq|Hin]; [now left|right; eauto].
  - intros Hin. right. eauto.
Qed.

(* the ids are consecutive from [c], in iteration order *)
Lemma number_from_ids (l : dict (Info T)) (c : Z) (j : nat) (k : string) (e : E) :
  nth_error (number_from keep mk c l) j = Some (k, e) ->
  id_of e = c + Z.of_nat j.
Proof.
  revert c j. induction l as [|[k0 info] l IH]; intros c j; simpl.
  - now destruct j.
  - destruct (keep info); [|apply IH].
    destruct j as [|j]; simpl.
    + intros [= _ <-]. rewrite id_of_mk. lia.
    + intros H. apply IH in H. lia.
Qed.

Lemma number_from_get (l : dict (Info T)) (c : Z) (k : string) :
  NoDup (map fst l) ->
  match PyDict.get k l with
  | Some info =>
      if keep info
      then exists c', PyDict.get k (number_from keep mk c l) = Some (mk c' info)
      else PyDict.get k (number_from keep mk c l) = None
  | None => PyDict.get k (number_from keep mk c l) = None
  end.
Proof.
  revert c. induction l as [|[k0 info] l IH]; intros c Hnd; [reflexivity|].
  inversion Hnd as [|? ? Hnotin Hnd']; subst.
  cbn [PyDict.get number_from].
  destruct (String.eqb_spec k0 k) as [->|Hne].
  - destruct (keep info) eqn:Hkeep.
    + exists c. cbn [PyDict.get]. now rewrite String.eqb_refl.
    + apply get_None_keys. intros Hin. apply Hnotin.
      eapply number_from_keys, Hin.
  - destruct (keep info) eqn:Hkeep.
    + cbn [PyDict.get]. destruct (String.eqb_spec k0 k); [contradiction|].
      apply IH, Hnd'.
    + apply IH, Hnd'.
Qed.

(* with consecutive ids, the scan for an id stops at the entry that has it *)
Lemma find_by_id_dense (table : dict E) (c : Z) (k : string) (e : E) :
  (forall j k' e', nth_error table j = Some (k', e') -> id_of e' = c + Z.of_nat j) ->
  In (k, e) table ->
  find_by_id id_of table (id_of e) = Some e.
Proof.
  revert c. induction table as [|[k0 e0] table IH]; intros c Hids Hin;
    [contradiction|].
  unfold find_by_id. cbn [find snd].
  pose proof (Hids 0%nat k0 e0 eq_refl) as H0.
  destruct Hin as [[= -> ->]|Hin].
  - now rewrite Z.eqb_refl.
  - destruct (In_nth_error _ _ Hin) as [j Hj].
    pose proof (Hids (S j) k e Hj) as Hj'.
    destruct (Z.eqb_spec (id_of e0) (id_of e)) as [Heq|_]; [lia|].
    apply (IH (c + 1)); [|exact Hin].
    intros j' k' e' Hnth. rewrite (Hids (S j') k' e' Hnth). lia.
Qed.

End Numbering.

Lemma build_pattern_dict_number_from (ps : dict (Info PatternTemplate)) :
  NoDup (map fst ps) ->
  build_pattern_dict ps = number_from keep_pattern pattern_entry_of 0 ps.
Proof.
  intros Hnd. unfold build_pattern_dict.
  now rewrite (fold_step_number_from keep_pattern pattern_entry_of add_pattern).
Qed.

Lemma build_semantic_dict_number_from (ss : dict (Info SemanticTemplate)) :
  NoDup (map fst ss) ->
  build_semantic_dict ss = number_from keep_semantic semantic_entry_of 0 ss.
Proof.
  intros Hnd. unfold build_semantic_dict.
  now rewrite (fold_step_number_from keep_semantic semantic_entry_of add_semantic).
Qed.

(* the two tables of the document, for every input *)
Lemma pattern_table_number_from (nodes : list Node) :
  pattern_table (simulate_compression nodes)
  = number_from keep_pattern pattern_entry_of 0
      (count_all create_compact_signature pattern_template_of nodes []).
Proof.
  destruct nodes as [|n ns]; [reflexivity|].
  rewrite simulate_compression_fields by discriminate.
  unfold pattern_table. cbn [patterns get_default].
  rewrite detect_patterns_count_all. cbn [fst].
  apply build_pattern_dict_number_from, count_all_NoDup. constructor.
Qed.

Lemma semantic_table_number_from (nodes : list Node) :
  semantic_table (simulate_compression nodes)
  = number_from keep_semantic semantic_entry_of 0
      (count_all create_semantic_signature semantic_template_of nodes []).
Proof.
  destruct nodes as [|n ns]; [reflexivity|].
  rewrite simulate_compression_fields by discriminate.
  unfold semantic_table. cbn [semantic_patterns get_default].
  rewrite detect_patterns_count_all. cbn [snd].
  apply build_semantic_dict_number_from, count_all_NoDup. constructor.
Qed.

(** ** What the tables hold, in terms of the input *)

(* what the pattern table holds under a signature *)
Lemma pattern_table_get (nodes : list Node) (sig : string) :
  match first_with create_compact_signature sig nodes with
  | Some first =>
      if 1 <? occurrences create_compact_signature sig nodes
      then exists id,
          PyDict.get sig (pattern_table (simulate_compression nodes))
          = Some {| pe_id := id;
                    pe_template := pattern_template_of first;
                    pe_count := occurrences create_compact_signature sig nodes |}
      else PyDict.get sig (pattern_table (simulate_compression nodes)) = None
  | None => PyDict.get sig (pattern_table (simulate_compression nodes)) = None
  end.
Proof.
  rewrite pattern_table_number_from.
  pose proof (number_from_get keep_pattern pattern_entry_of
                (count_all create_compact_signature pattern_template_of nodes [])
                0 sig) as H.
  rewrite count_all_get in H. cbn [PyDict.get] in H.
  destruct (first_with create_compact_signature sig nodes) as [first|];
    apply H, count_all_NoDup; constructor.
Qed.

(* what the semantic table holds under a semantic signature *)
Lemma semantic_table_get (nodes : list Node) (key : string) :
  match first_with create_semantic_signature key nodes with
  | Some first =>
      if (1 <? occurrences create_semantic_signature key nodes)
         || is_common_construct (semantic_template_of first)
      then exists id,
          PyDict.get key (semantic_table (simulate_compression nodes))
          = Some {| se_id := id;
                    se_template := semantic_template_of first;
                    se_count := occurrences create_semantic_signature key nodes;
                    se_semantic_type := detect_semantic_type first |}
      else PyDict.get key (semantic_table (simulate_compression nodes)) = None
  | None => PyDict.get key (semantic_table (simulate_compression nodes)) = None
  end.
Proof.
  rewrite semantic_table_number_from.
  pose proof (number_from_get keep_semantic semantic_entry_of
                (count_all create_semantic_signature semantic_template_of nodes [])
                0 key) as H.
  rewrite count_all_get in H. cbn [PyDict.get] in H.
  destruct (first_with create_semantic_signature key nodes) as [first|];
    apply H, count_all_NoDup; constructor.
Qed.

Lemma first_with_None_occurrences (key : Node -> string) (k : string)
    (nodes : list Node) :
  first_with key k nodes = None -> occurrences key k nodes = 0.
Proof.
  unfold first_with, occurrences. intros Hnone.
  induction nodes as [|a nodes IH]; [reflexivity|].
  simpl in Hnone |- *. destruct (key a =? k)%string; [discriminate|]. auto.
Qed.

(** X1: the pattern table has an entry for a signature exactly when more
    than one input node has that signature; the count of the entry is the
    number of those nodes and its template is made from the first of
    them. *)
Theorem pattern_table_spec (nodes : list Node) (sig : string) :
  match PyDict.get sig (pattern_table (simulate_compression nodes)) with
  | Some e =>
      1 < occurrences create_compact_signature sig nodes /\
      pe_count e = occurrences create_compact_signature sig nodes /\
      exists first,
        first_with create_compact_signature sig nodes = Some first /\
        pe_template e = pattern_template_of first
  | None => occurrences create_compact_signature sig nodes <= 1
  end.
Proof.
  pose proof (pattern_table_get nodes sig) as H.
  destruct (first_with create_compact_signature sig nodes) as [first|] eqn:Hfirst.
  - destruct (Z.ltb_spec 1 (occurrences create_compact_signature sig nodes))
      as [Hlt|Hle].
    + destruct H as [id ->]. cbn [pe_count pe_template].
      split; [exact Hlt|]. split; [reflexivity|]. now exists first.
    + now rewrite H.
  - rewrite H, (first_with_None_occurrences _ _ _ Hfirst). lia.
Qed.

(** X2: the semantic table has an entry for a semantic signature exactly
    when more than one input node has it or the first input node that has it
    is a common construct; the count of the entry is the number of nodes
    that have the signature, and its template and semantic type are made
    from the first of them. *)
Theorem semantic_table_spec (nodes : list Node) (key : string) :
  match PyDict.get key (semantic_table (simulate_compression nodes)) with
  | Some e =>
      exists first,
        first_with create_semantic_signature key nodes = Some first /\
        (1 < occurrences create_semantic_signature key nodes \/
         is_common_construct (semantic_template_of first) = true) /\
        se_count e = occurrences create_semantic_signature key nodes /\
        se_template e = semantic_template_of first /\
        se_semantic_type e = detect_semantic_type first
  | None =>
      occurrences create_semantic_signature key nodes <= 1 /\
      match first_with create_semantic_signature key nodes with
      | Some first => is_common_construct (semantic_template_of first) = false
      | None => True
      end
  end.
Proof.
  pose proof (semantic_table_get nodes key) as H.
  destruct (first_with create_semantic_signature key nodes) as [first|] eqn:Hfirst.
  - destruct (Z.ltb_spec 1 (occurrences create_semantic_signature key nodes))
      as [Hlt|Hle]; cbn [orb] in H.
    + destruct H as [id ->]. exists first. cbn [se_count se_template se_semantic_type].
      repeat split. now left.
    + destruct (is_common_construct (semantic_template_of first)) eqn:Hcommon.
      * destruct H as [id ->]. exists first.
        cbn [se_count se_template se_semantic_type]. repeat split. now right.
      * rewrite H. split; [exact Hle|reflexivity].
  - rewrite H, (first_with_None_occurrences _ _ _ Hfirst). split; [lia|exact I].
Qed.

(** ** Order of the entries and their ids *)

Lemma filter_filter_andb {A : Type} (f g : A -> bool) (l : list A) :
  filter f (filter g l) = filter (fun x => g x && f x) l.
Proof.
  induction l as [|a l IH]; simpl; [reflexivity|].
  destruct (g a); simpl; [destruct (f a)|]; now rewrite IH.
Qed.

Section KeyOrder.
Context {T : Type} (key : Node -> string) (tpl : Node -> T).

Lemma mem_count_key (x k : string) (t : T) (d : dict (Info T)) :
  PyDict.mem x (count_key k t d) = (x =? k)%string || PyDict.mem x d.
Proof.
  unfold PyDict.mem at 1. destruct (String.eqb_spec x k) as [->|Hne].
  - rewrite get_count_key_same. now destruct (PyDict.get k d).
  - rewrite get_count_key_other by congruence. reflexivity.
Qed.

Lemma keys_count_key (k : string) (t : T) (d : dict (Info T)) :
  map fst (count_key k t d)
  = if PyDict.mem k d then map fst d else (map fst d ++ [k])%list.
Proof.
  unfold count_key. destruct (PyDict.mem k d) eqn:Hmem.
  - apply keys_update.
  - unfold PyDict.set. rewrite Hmem. now rewrite map_app.
Qed.

(* the keys are stored in the order in which the input first shows them *)
Lemma keys_count_all (nodes : list Node) (d : dict (Info T)) :
  map fst (count_all key tpl nodes d)
  = (map fst d
     ++ filter (fun x => negb (PyDict.mem x d)) (first_seen (map key nodes)))%list.
Proof.
  revert d. induction nodes as [|a nodes IH]; intros d.
  - simpl. now rewrite app_nil_r.
  - unfold count_all in *. cbn [fold_left map first_seen filter].
    rewrite IH, keys_count_key, filter_filter_andb.
    rewrite (filter_ext (fun x => negb (PyDict.mem x (count_key (key a) (tpl a) d)))
                        (fun x => negb (x =? key a)%string && negb (PyDict.mem x d))).
    + destruct (PyDict.mem (key a) d); cbn [negb].
      * reflexivity.
      * now rewrite <- app_assoc.
    + intros x. rewrite mem_count_key. apply negb_orb.
Qed.

Lemma keys_count_all_nil (nodes : list Node) :
  map fst (count_all key tpl nodes []) = first_seen (map key nodes).
Proof.
  rewrite keys_count_all. cbn [map app].
  apply forallb_filter_id, forallb_forall. reflexivity.
Qed.

End KeyOrder.

Section NumberingOrder.
Context {T E : Type} (keep : Info T -> bool) (mk : Z -> Info T -> E)
        (id_of : E -> Z).
Hypothesis id_of_mk : forall c info, id_of (mk c info) = c.

Lemma number_from_ids_zseq (l : dict (Info T)) (c : Z) :
  map id_of (PyDict.values (number_from keep mk c l))
  = zseq c (List.length (number_from keep mk c l)).
Proof.
  revert c. induction l as [|[k info] l IH]; intros c; [reflexivity|].
  cbn [number_from]. destruct (keep info); [|apply IH].
  cbn [PyDict.values map snd List.length zseq]. rewrite id_of_mk. f_equal.
  apply IH.
Qed.

Lemma number_from_keys_filter (keptk : string -> bool) (l : dict (Info T)) (c : Z) :
  (forall k info, In (k, info) l -> keep info = keptk k) ->
  map fst (number_from keep mk c l) = filter keptk (map fst l).
Proof.
  revert c. induction l as [|[k info] l IH]; intros c Hkeep; [reflexivity|].
  cbn [number_from map fst filter].
  rewrite <- (Hkeep k info) by now left.
  destruct (keep info); cbn [map fst].
  - f_equal. apply IH. intros k' info' Hin. apply Hkeep. now right.
  - apply IH. intros k' info' Hin. apply Hkeep. now right.
Qed.

End NumberingOrder.

(** X3: the pattern table lists, in the order of their first occurrence in
    the input, the exact signatures that more than one node has, and the
    semantic table the semantic signatures that are kept; in both tables the
    ids are 0, 1, 2, ... in that order. *)
Theorem tables_first_seen_order (nodes : list Node) :
  map fst (pattern_table (simulate_compression nodes))
  = filter (pattern_key_kept nodes)
           (first_seen (map create_compact_signature nodes)) /\
  map pe_id (PyDict.values (pattern_table (simulate_compression nodes)))
  = zseq 0 (List.length (pattern_table (simulate_compression nodes))) /\
  map fst (semantic_table (simulate_compression nodes))
  = filter (semantic_key_kept nodes)
           (first_seen (map create_semantic_signature nodes)) /\
  map se_id (PyDict.values (semantic_table (simulate_compression nodes)))
  = zseq 0 (List.length (semantic_table (simulate_compression nodes))).
Proof.
  rewrite pattern_table_number_from, semantic_table_number_from.
  split; [|split; [|split]].
  - rewrite (number_from_keys_filter _ _ (pattern_key_kept nodes)).
    + now rewrite keys_count_all_nil.
    + intros k info Hin. apply get_first_key in Hin;
        [|apply count_all_NoDup; constructor].
      rewrite count_all_get in Hin. cbn [PyDict.get] in Hin.
      destruct (first_with create_compact_signature k nodes); [|discriminate].
      injection Hin as <-. reflexivity.
  - now apply number_from_ids_zseq.
  - rewrite (number_from_keys_filter _ _ (semantic_key_kept nodes)).
    + now rewrite keys_count_all_nil.
    + intros k info Hin. apply get_first_key in Hin;
        [|apply count_all_NoDup; constructor].
      rewrite count_all_get in Hin. cbn [PyDict.get] in Hin.
      unfold semantic_key_kept.
      destruct (first_with create_semantic_signature k nodes); [|discriminate].
      injection Hin as <-. reflexivity.
  - now apply number_from_ids_zseq.
Qed.

(** ** Decoding what the encoder wrote, in terms of the input *)

Lemma first_with_In {key : Node -> string} (nodes : list Node) (node : Node) :
  In node nodes ->
  exists first, first_with key (key node) nodes = Some first
                /\ key first = key node /\ In first nodes.
Proof.
  intros Hin. unfold first_with.
  destruct (find (fun n => (key n =? key node)%string) nodes) as [first|] eqn:Hfind.
  - exists first. apply find_some in Hfind. destruct Hfind as [Hf Heq].
    apply String.eqb_eq in Heq. auto.
  - exfalso. apply (find_none _ _ Hfind) in Hin.
    now rewrite String.eqb_refl in Hin.
Qed.

(* the decoder's scan for the id of an entry of the encoder's tables comes
   back with that entry *)
Lemma find_pattern_entry (nodes : list Node) (sig : string) (e : PatternEntry) :
  PyDict.get sig (pattern_table (simulate_compression nodes)) = Some e ->
  find_by_id pe_id (pattern_table (simulate_compression nodes)) (pe_id e) = Some e.
Proof.
  intros Hget. apply get_In in Hget.
  apply (find_by_id_dense pe_id _ 0 sig); [|exact Hget].
  rewrite pattern_table_number_from. intros j k' e' Hnth.
  now apply (number_from_ids keep_pattern pattern_entry_of pe_id) in Hnth.
Qed.

Lemma find_semantic_entry (nodes : list Node) (key : string) (e : SemanticEntry) :
  PyDict.get key (semantic_table (simulate_compression nodes)) = Some e ->
  find_by_id se_id (semantic_table (simulate_compression nodes)) (se_id e) = Some e.
Proof.
  intros Hget. apply get_In in Hget.
  apply (find_by_id_dense se_id _ 0 key); [|exact Hget].
  rewrite semantic_table_number_from. intros j k' e' Hnth.
  now apply (number_from_ids keep_semantic semantic_entry_of se_id) in Hnth.
Qed.

Lemma round_trip_item (nodes : list Node) (node : Node) :
  In node nodes ->
  decompress_item (pattern_table (simulate_compression nodes))
                  (semantic_table (simulate_compression nodes))
                  (compress_node (pattern_table (simulate_compression nodes))
                                 (semantic_table (simulate_compression nodes))
                                 node)
  = Some (round_trip_node nodes node).
Proof.
  intros Hin.
  pose proof (semantic_table_get nodes (create_semantic_signature node)) as Hsem.
  pose proof (pattern_table_get nodes (create_compact_signature node)) as Hpat.
  destruct (first_with_In (key := create_semantic_signature) nodes node Hin)
    as [fs [Hfs _]].
  destruct (first_with_In (key := create_compact_signature) nodes node Hin)
    as [fp [Hfp _]].
  unfold round_trip_node, semantic_kept, pattern_kept,
    semantic_key_kept, pattern_key_kept, compress_node.
  rewrite Hfs in *. rewrite Hfp in *. cbn [get_default].
  destruct ((1 <? occurrences create_semantic_signature
                    (create_semantic_signature node) nodes)
            || is_common_construct (semantic_template_of fs)).
  - destruct Hsem as [id Hget]. rewrite Hget.
    cbn [decompress_item se_id]. apply find_semantic_entry in Hget.
    cbn [se_id] in Hget. rewrite Hget. reflexivity.
  - rewrite Hsem.
    destruct (1 <? occurrences create_compact_signature
                     (create_compact_signature node) nodes) eqn:Hocc.
    + destruct Hpat as [id Hget]. rewrite Hget. cbn [pe_count]. rewrite Hocc.
      cbn [decompress_item pe_id]. apply find_pattern_entry in Hget.
      cbn [pe_id] in Hget. rewrite Hget. reflexivity.
    + rewrite Hpat. reflexivity.
Qed.

Lemma decompress_items_map (pats : dict PatternEntry) (sems : dict SemanticEntry)
    (f : Node -> Item) (g : Node -> Node) (l : list Node) :
  (forall node, In node l -> decompress_item pats sems (f node) = Some (g node)) ->
  decompress_items pats sems (map f l) = map g l.
Proof.
  induction l as [|a l IH]; intros H; [reflexivity|].
  cbn [map decompress_items]. rewrite (H a) by now left.
  f_equal. apply IH. intros node Hin. apply H. now right.
Qed.

(** X4: for every input, decoding the encoder's output gives, node by node:
    when the node's semantic signature is kept, the type, compressed text,
    language and semantic type of the first input node with that semantic
    signature; otherwise, when its exact signature occurs more than once,
    the type, compressed text and language of the first input node with that
    exact signature; otherwise its own compressed type and compressed text
    with the language "unknown"; always with its own line number. *)
Theorem round_trip_nodes (nodes : list Node) :
  simulate_decompression (simulate_compression nodes)
  = map (round_trip_node nodes) nodes.
Proof.
  rewrite simulate_decompression_records, records_simulate_compression.
  apply decompress_items_map. intros node Hin. now apply round_trip_item.
Qed.

(** ** Which records are references *)

Lemma compress_node_marker (nodes : list Node) (node : Node) :
  In node nodes ->
  is_semantic_item
    (compress_node (pattern_table (simulate_compression nodes))
                   (semantic_table (simulate_compression nodes)) node)
  = semantic_kept nodes node /\
  is_pattern_item
    (compress_node (pattern_table (simulate_compression nodes))
                   (semantic_table (simulate_compression nodes)) node)
  = negb (semantic_kept nodes node) && pattern_kept nodes node.
Proof.
  intros Hin.
  pose proof (semantic_table_get nodes (create_semantic_signature node)) as Hsem.
  pose proof (pattern_table_get nodes (create_compact_signature node)) as Hpat.
  destruct (first_with_In (key := create_semantic_signature) nodes node Hin)
    as [fs [Hfs _]].
  destruct (first_with_In (key := create_compact_signature) nodes node Hin)
    as [fp [Hfp _]].
  unfold semantic_kept, pattern_kept, semantic_key_kept, pattern_key_kept,
    compress_node.
  rewrite Hfs in *. rewrite Hfp in *.
  destruct ((1 <? occurrences create_semantic_signature
                    (create_semantic_signature node) nodes)
            || is_common_construct (semantic_template_of fs)).
  - destruct Hsem as [id ->]. split; reflexivity.
  - rewrite Hsem.
    destruct (1 <? occurrences create_compact_signature
                     (create_compact_signature node) nodes) eqn:Hocc.
    + destruct Hpat as [id ->]. cbn [pe_count]. rewrite Hocc. split; reflexivity.
    + rewrite Hpat. split; reflexivity.
Qed.

(** X5: the record of an input node is an 'S' record exactly when the node's
    semantic signature occurs more than once in the input or the first node
    with that signature is a common construct; it is a 'P' record exactly
    when that is not so and the node's exact signature occurs more than once;
    it is an 'O' record in the remaining case. *)
Theorem record_markers (nodes : list Node) :
  map is_semantic_item (records (simulate_compression nodes))
  = map (semantic_kept nodes) nodes /\
  map is_pattern_item (records (simulate_compression nodes))
  = map (fun node => negb (semantic_kept nodes node) && pattern_kept nodes node)
        nodes.
Proof.
  rewrite records_simulate_compression, !map_map.
  split; apply map_ext_in; intros node Hin;
    now destruct (compress_node_marker nodes node Hin).
Qed.

(** ** Semantic signatures and the language *)

Lemma create_semantic_signature_form (node : Node) :
  exists cat, In cat categories /\
              create_semantic_signature node = cat ++ ":" ++ n_language node.
Proof.
  unfold create_semantic_signature.
  repeat match goal with
         | |- context [if ?b then _ else _] => destruct b
         end;
    [ exists "function_decl" | exists "type_decl" | exists "control_flow"
    | exists "loop_construct" | exists "flow_control"
    | exists "import_statement" | exists "comment" | exists "variable_decl"
    | exists "other" ];
    (split; [simpl; tauto|reflexivity]).
Qed.

Lemma category_language (c1 c2 l1 l2 : string) :
  In c1 categories -> In c2 categories ->
  c1 ++ ":" ++ l1 = c2 ++ ":" ++ l2 -> c1 = c2 /\ l1 = l2.
Proof.
  unfold categories. cbn [In]. intros H1 H2.
  repeat (destruct H1 as [<-|H1]);
    try contradiction;
    repeat (destruct H2 as [<-|H2]);
    try contradiction;
    cbn [append]; intros H; (split; congruence).
Qed.

(** X6: the semantic signature determines the language: two nodes with the
    same semantic signature carry the same language tag, so an entry of the
    semantic table never mixes languages. *)
Theorem semantic_signature_language (n1 n2 : Node) :
  create_semantic_signature n1 = create_semantic_signature n2 ->
  n_language n1 = n_language n2.
Proof.
  destruct (create_semantic_signature_form n1) as [c1 [Hc1 ->]].
  destruct (create_semantic_signature_form n2) as [c2 [Hc2 ->]].
  intros H. now destruct (category_language _ _ _ _ Hc1 Hc2 H).
Qed.

Lemma semantic_signature_language_witness :
  create_semantic_signature (line_node "fn foo() {}" 1 "rust")
  = create_semantic_signature (line_node "pub fn bar()" 7 "rust") /\
  n_language (line_node "fn foo() {}" 1 "rust")
  = n_language (line_node "pub fn bar()" 7 "rust").
Proof.
  split; [reflexivity|].
  apply (semantic_signature_language (line_node "fn foo() {}" 1 "rust")
                                     (line_node "pub fn bar()" 7 "rust")).
  reflexivity.
Defined.

(** ** Lines of one semantic signature are merged *)

Section Occurrences.
Context (key : Node -> string).

Lemma occurrences_In (k : string) (nodes : list Node) (node : Node) :
  In node nodes -> key node = k -> 1 <= occurrences key k nodes.
Proof.
  intros Hin Hk. induction nodes as [|a nodes IH]; [contradiction|].
  rewrite occurrences_cons. pose proof (occurrences_nonneg key k nodes).
  destruct Hin as [->|Hin].
  - rewrite Hk, String.eqb_refl. lia.
  - specialize (IH Hin). destruct (key a =? k)%string; lia.
Qed.

Lemma occurrences_two_lt (k : string) (nodes : list Node) (i j : nat)
    (ni nj : Node) :
  (i < j)%nat ->
  nth_error nodes i = Some ni -> nth_error nodes j = Some nj ->
  key ni = k -> key nj = k ->
  1 < occurrences key k nodes.
Proof.
  revert i j. induction nodes as [|a nodes IH]; intros i j Hlt Hi Hj Hki Hkj.
  - now destruct i.
  - rewrite occurrences_cons. destruct j as [|j]; [lia|].
    cbn [nth_error] in Hj. destruct i as [|i].
    + cbn [nth_error] in Hi. injection Hi as ->.
      rewrite Hki, String.eqb_refl.
      pose proof (occurrences_In k nodes nj (nth_error_In _ _ Hj) Hkj). lia.
    + cbn [nth_error] in Hi.
      assert (1 < occurrences key k nodes) by (apply (IH i j); auto; lia).
      destruct (key a =? k)%string; lia.
Qed.

Lemma occurrences_two (k : string) (nodes : list Node) (i j : nat)
    (ni nj : Node) :
  i <> j ->
  nth_error nodes i = Some ni -> nth_error nodes j = Some nj ->
  key ni = k -> key nj = k ->
  1 < occurrences key k nodes.
Proof.
  intros Hne Hi Hj Hki Hkj.
  destruct (Nat.lt_trichotomy i j) as [Hlt|[Heq|Hgt]]; [|contradiction|].
  - now apply (occurrences_two_lt k nodes i j ni nj).
  - now apply (occurrences_two_lt k nodes j i nj ni).
Qed.

End Occurrences.

(** X7: any two input nodes at different positions that have the same
    semantic signature are both emitted as 'S' records with one id, and
    decode to nodes that differ at most in their line number: both carry the
    type and the compressed text of the first input node with that
    signature, and their own language. *)
Theorem same_semantic_signature_merged (nodes : list Node) (i j : nat)
    (ni nj : Node) :
  i <> j ->
  nth_error nodes i = Some ni ->
  nth_error nodes j = Some nj ->
  create_semantic_signature ni = create_semantic_signature nj ->
  exists id first,
    first_with create_semantic_signature (create_semantic_signature ni) nodes
    = Some first /\
    nth_error (records (simulate_compression nodes)) i
    = Some (ItemS id (n_line_number ni)) /\
    nth_error (records (simulate_compression nodes)) j
    = Some (ItemS id (n_line_number nj)) /\
    nth_error (simulate_decompression (simulate_compression nodes)) i
    = Some {| n_type := n_type first;
              n_value := compress_value (n_value first);
              n_line_number := n_line_number ni;
              n_language := n_language ni;
              n_semantic_type := Some (detect_semantic_type first) |} /\
    nth_error (simulate_decompression (simulate_compression nodes)) j
    = Some {| n_type := n_type first;
              n_value := compress_value (n_value first);
              n_line_number := n_line_number nj;
              n_language := n_language nj;
              n_semantic_type := Some (detect_semantic_type first) |}.
Proof.
  intros Hne Hi Hj Hkey.
  pose proof (occurrences_two create_semantic_signature
                (create_semantic_signature ni) nodes i j ni nj Hne Hi Hj
                eq_refl (eq_sym Hkey)) as Hocc.
  apply Z.ltb_lt in Hocc.
  destruct (first_with_In (key := create_semantic_signature) nodes ni
                          (nth_error_In _ _ Hi)) as [first [Hfirst [Hkf _]]].
  pose proof (semantic_table_get nodes (create_semantic_signature ni)) as Hsem.
  rewrite Hfirst, Hocc in Hsem. cbn [orb] in Hsem. destruct Hsem as [id Hget].
  assert (Hkept : forall n, create_semantic_signature n = create_semantic_signature ni ->
                            semantic_kept nodes n = true).
  { intros n Hn. unfold semantic_kept, semantic_key_kept. now rewrite Hn, Hocc. }
  assert (Hsame : forall a b, create_semantic_signature a = create_semantic_signature b ->
                              n_language a = n_language b).
  { intros a b.
    destruct (create_semantic_signature_form a) as [c1 [Hc1 ->]].
    destruct (create_semantic_signature_form b) as [c2 [Hc2 ->]].
    intros H. now destruct (category_language _ _ _ _ Hc1 Hc2 H). }
  exists id, first. split; [exact Hfirst|].
  rewrite simulate_decompression_records, records_simulate_compression.
  rewrite (decompress_items_map _ _ _ (round_trip_node nodes))
    by (intros node Hin; now apply round_trip_item).
  rewrite (map_nth_error _ _ _ Hi), (map_nth_error _ _ _ Hj).
  rewrite (map_nth_error _ _ _ Hi), (map_nth_error _ _ _ Hj).
  unfold compress_node, round_trip_node.
  rewrite (Hkept ni eq_refl), (Hkept nj (eq_sym Hkey)).
  rewrite <- Hkey, Hget, Hfirst. cbn [get_default se_id].
  rewrite (Hsame first ni Hkf).
  pose proof (Hsame ni nj Hkey) as Hlang.
  repeat split. now rewrite Hlang.
Qed.

Lemma same_semantic_signature_merged_witness :
  exists id first,
    first_with create_semantic_signature
      (create_semantic_signature (line_node "let x = 1;" 1 "demo")) scenario_a
    = Some first /\
    nth_error (records (simulate_compression scenario_a)) 0
    = Some (ItemS id 1) /\
    nth_error (records (simulate_compression scenario_a)) 3
    = Some (ItemS id 4) /\
    nth_error (simulate_decompression (simulate_compression scenario_a)) 0
    = Some {| n_type := n_type first;
              n_value := compress_value (n_value first);
              n_line_number := 1;
              n_language := "demo";
              n_semantic_type := Some (detect_semantic_type first) |} /\
    nth_error (simulate_decompression (simulate_compression scenario_a)) 3
    = Some {| n_type := n_type first;
              n_value := compress_value (n_value first);
              n_line_number := 4;
              n_language := "demo";
              n_semantic_type := Some (detect_semantic_type first) |}.
Proof.
  apply (same_semantic_signature_merged scenario_a 0 3
           (line_node "let x = 1;" 1 "demo") (line_node "let y = 2;" 4 "demo"));
    [discriminate|reflexivity|reflexivity|reflexivity].
Defined.

(** ** The size estimate *)

Lemma utf8_len_nonneg (s : string) : 0 <= utf8_len s.
Proof.
  induction s as [|c s IH]; simpl; [lia|].
  destruct (nat_of_ascii c <? 128)%nat; lia.
Qed.

Lemma fold_add_pattern_size (pats : dict PatternEntry) (acc : Z) :
  acc <= fold_left add_pattern_size pats acc.
Proof.
  revert acc. induction pats as [|[sig info] pats IH]; intros acc; simpl; [lia|].
  etransitivity; [|apply IH].
  pose proof (utf8_len_nonneg sig).
  pose proof (utf8_len_nonneg (pt_type (pe_template info))).
  pose proof (utf8_len_nonneg (pt_value (pe_template info))).
  pose proof (utf8_len_nonneg (pt_language (pe_template info))).
  lia.
Qed.

Lemma fold_add_item_size (items : list Item) (acc : Z) :
  acc + 5 * Z.of_nat (List.length items) <= fold_left add_item_size items acc.
Proof.
  revert acc. induction items as [|item items IH]; intros acc.
  - simpl. lia.
  - cbn [fold_left List.length]. etransitivity; [|apply IH].
    destruct item as [pid ln|sid ln|ty v ln]; cbn [add_item_size].
    + lia.
    + lia.
    + pose proof (utf8_len_nonneg ty). pose proof (utf8_len_nonneg v). lia.
Qed.

(** X8: the size estimate of a document.  It is 0 for the empty dict and for
    no other document; a dict that has some key but lacks 'patterns', or has
    'patterns' but lacks 'data', makes it raise KeyError on that key; in
    every other case it returns at least 50 plus 5 for each record. *)
Theorem compressed_size_outcomes (doc : CompressedData) :
  match get_compressed_size doc with
  | Returns n =>
      (is_empty_dict doc = true /\ n = 0) \/
      (is_empty_dict doc = false /\ patterns doc <> None /\ data doc <> None /\
       50 + 5 * Z.of_nat (List.length (records doc)) <= n)
  | KeyError key =>
      is_empty_dict doc = false /\
      ((key = "patterns" /\ patterns doc = None) \/
       (key = "data" /\ patterns doc <> None /\ data doc = None))
  end.
Proof.
  unfold get_compressed_size, records.
  destruct (is_empty_dict doc) eqn:Hempty; [now left|].
  destruct (patterns doc) as [pats|]; [|split; [reflexivity|now left]].
  destruct (data doc) as [items|].
  - right. repeat split; try discriminate. cbn [get_default].
    pose proof (fold_add_pattern_size pats 0).
    pose proof (fold_add_item_size items 0). lia.
  - split; [reflexivity|]. right. repeat split. discriminate.
Qed.

(** X9: the size estimate of what the encoder returns never raises: it is 0
    for the empty input and at least 50 plus 5 for each input node
    otherwise, so the caller's guard [compressed_size > 0] fails for the
    empty input only. *)
Theorem compressed_size_of_encoding (nodes : list Node) :
  exists n,
    get_compressed_size (simulate_compression nodes) = Returns n /\
    match nodes with
    | [] => n = 0
    | _ :: _ => 50 + 5 * Z.of_nat (List.length nodes) <= n
    end.
Proof.
  destruct nodes as [|a nodes]; [exists 0; split; reflexivity|].
  rewrite simulate_compression_fields by discriminate.
  unfold get_compressed_size. cbn [is_empty_dict patterns data].
  eexists. split; [reflexivity|].
  match goal with
  | |- _ <= fold_left add_pattern_size ?pats 0 + fold_left add_item_size ?items 0 + 50 =>
      pose proof (fold_add_pattern_size pats 0);
      pose proof (fold_add_item_size items 0) as Hitems
  end.
  rewrite length_map in Hitems. lia.
Qed.

(** ** The nodes of a text *)

Lemma lstrip_head (s : string) :
  lstrip s = EmptyString \/
  exists c t, lstrip s = String c t /\ is_space c = false.
Proof.
  induction s as [|c s IH]; simpl; [now left|].
  destruct (is_space c) eqn:Hc; [exact IH|].
  right. now exists c, s.
Qed.

Lemma rstrip_head (c : ascii) (t : string) :
  is_space c = false -> exists r, rstrip (String c t) = String c r.
Proof.
  intros Hc. simpl. rewrite Hc. destruct (rstrip t) as [|d r]; eauto.
Qed.

Lemma rstrip_rstrip (s : string) : rstrip (rstrip s) = rstrip s.
Proof.
  induction s as [|c s IH]; [reflexivity|].
  simpl. destruct (rstrip s) as [|d r] eqn:Hr.
  - destruct (is_space c) eqn:Hc; [reflexivity|]. simpl. now rewrite Hc.
  - change (rstrip (String c (String d r))) with
      (match rstrip (String d r) with
       | EmptyString => if is_space c then EmptyString else String c EmptyString
       | String e r' => String c (String e r')
       end).
    now rewrite IH.
Qed.

(* strip() leaves nothing for a second strip() to remove *)
Lemma strip_strip (s : string) : strip (strip s) = strip s.
Proof.
  unfold strip. destruct (lstrip_head s) as [->|[c [t [-> Hc]]]]; [reflexivity|].
  destruct (rstrip_head c t Hc) as [r Hr]. rewrite Hr.
  cbn [lstrip]. rewrite Hc, <- Hr. apply rstrip_rstrip.
Qed.

Lemma create_test_ast_from (language : string) (lines : list string) (a : nat) :
  let nodes :=
    flat_map
      (fun il : nat * string =>
         let (i, line) := il in
         if (strip line =? "")%string then []
         else [ {| n_type := "line";
                   n_value := strip line;
                   n_line_number := Z.of_nat i + 1;
                   n_language := language;
                   n_semantic_type := None |} ])
      (combine (seq a (List.length lines)) lines) in
  StronglySorted Z.lt (map n_line_number nodes) /\
  Forall (fun node =>
            Z.of_nat a + 1 <= n_line_number node
            <= Z.of_nat a + Z.of_nat (List.length lines) /\
            n_type node = "line" /\
            n_language node = language /\
            n_semantic_type node = None /\
            n_value node <> "" /\
            strip (n_value node) = n_value node /\
            exists line, In line lines /\ n_value node = strip line)
         nodes.
Proof.
  revert a. induction lines as [|x lines IH]; intros a.
  - split; constructor.
  - cbn [List.length seq combine flat_map].
    destruct (IH (S a)) as [Hsorted Hall]. cbv zeta in Hsorted, Hall.
    assert (Hall' :
      Forall (fun node =>
            Z.of_nat a + 1 <= n_line_number node
            <= Z.of_nat a + Z.of_nat (S (List.length lines)) /\
            n_type node = "line" /\
            n_language node = language /\
            n_semantic_type node = None /\
            n_value node <> "" /\
            strip (n_value node) = n_value node /\
            exists line, In line (x :: lines) /\ n_value node = strip line)
        (flat_map
           (fun il : nat * string =>
              let (i, line) := il in
              if (strip line =? "")%string then []
              else [ {| n_type := "line";
                        n_value := strip line;
                        n_line_number := Z.of_nat i + 1;
                        n_language := language;
                        n_semantic_type := None |} ])
           (combine (seq (S a) (List.length lines)) lines))).
    { eapply Forall_impl; [|exact Hall].
      intros node [Hln [Hty [Hla [Hst [Hne [Hs [line [Hin Hv]]]]]]]].
      repeat split; try assumption; try lia.
      exists line. split; [now right|exact Hv]. }
    cbv zeta. destruct (String.eqb_spec (strip x) "") as [_|Hne].
    + cbn [app]. split; [exact Hsorted|exact Hall'].
    + cbn [app map n_line_number]. split.
      * constructor; [exact Hsorted|].
        apply Forall_map. eapply Forall_impl; [|exact Hall].
        intros node [Hln _]. lia.
      * constructor; [|exact Hall'].
        cbn [n_line_number n_type n_language n_semantic_type n_value].
        repeat split; try lia; try assumption.
        -- apply strip_strip.
        -- exists x. split; [now left|reflexivity].
Qed.

(** X10: the nodes [create_test_ast] makes of a text have strictly
    increasing line numbers between 1 and the number of lines of the text;
    each has the type "line", the given language, and a text that is not
    empty, has no white space at either end (white space as str.isspace
    has it: the ASCII blanks and separators, NEL U+0085 and the no-break
    space U+00A0), and is the stripped form of a line of the text. *)
Theorem create_test_ast_nodes (content language : string) :
  StronglySorted Z.lt (map n_line_number (create_test_ast content language)) /\
  Forall (fun node =>
            1 <= n_line_number node
            <= Z.of_nat (List.length (split_char newline content)) /\
            n_type node = "line" /\
            n_language node = language /\
            n_semantic_type node = None /\
            n_value node <> "" /\
            strip (n_value node) = n_value node /\
            exists line, In line (split_char newline content)
                         /\ n_value node = strip line)
         (create_test_ast content language).
Proof.
  exact (create_test_ast_from language (split_char newline content) 0).
Qed.

(** ** The value compressor never lengthens a text *)

Lemma length_append (s t : string) :
  String.length (s ++ t) = (String.length s + String.length t)%nat.
Proof. induction s as [|c s IH]; simpl; [reflexivity|now rewrite IH]. Qed.

Lemma prefix_length (p s : string) :
  String.prefix p s = true -> (String.length p <= String.length s)%nat.
Proof.
  revert s. induction p as [|c p IH]; intros s; [simpl; lia|].
  destruct s as [|d s]; simpl; [discriminate|].
  destruct (ascii_dec c d); [|discriminate].
  intros H. apply IH in H. lia.
Qed.

Lemma length_lower (s : string) : String.length (lower s) = String.length s.
Proof. induction s as [|c s IH]; simpl; congruence. Qed.

(* the keywords and abbreviations of the table are lower-case ASCII letters,
   the characters on which upper() and title() stay within the model *)
Lemma common_patterns_ascii :
  forallb (fun pr : string * string =>
             ascii_lower_text (fst pr) && ascii_lower_text (snd pr))
          common_patterns = true.
Proof. vm_compute. reflexivity. Qed.

(* replacing a text by one that is not longer does not lengthen *)
Lemma replace_from_length (old new : string) (skip : nat) (s : string) :
  (0 < String.length old)%nat ->
  (String.length new <= String.length old)%nat ->
  (String.length (replace_from old new skip s) <= String.length s - skip)%nat.
Proof.
  intros Hold Hnew. revert skip.
  induction s as [|c s IH]; intros skip.
  - simpl. destruct old; [simpl in Hold; lia|reflexivity].
  - cbn [replace_from]. destruct skip as [|k].
    + destruct (String.prefix old (String c s)) eqn:Hp.
      * apply prefix_length in Hp. rewrite length_append.
        destruct (String.length old) as [|n] eqn:Hn; [lia|].
        specialize (IH n). simpl in Hp |- *. lia.
      * specialize (IH 0%nat). simpl. lia.
    + specialize (IH k). simpl. lia.
Qed.

Lemma replace_length (s old new : string) :
  (0 < String.length old)%nat ->
  (String.length new <= String.length old)%nat ->
  (String.length (replace s old new) <= String.length s)%nat.
Proof.
  intros Hold Hnew. unfold replace.
  pose proof (replace_from_length old new 0 s Hold Hnew). lia.
Qed.

Lemma apply_pattern_length (compressed : string) (pr : string * string) :
  entry_shortens pr = true ->
  (String.length (apply_pattern compressed pr) <= String.length compressed)%nat.
Proof.
  destruct pr as [pattern replacement]. unfold entry_shortens, apply_pattern.
  rewrite !andb_true_iff, !Nat.ltb_lt, !Nat.leb_le.
  intros [[[[[H1 H2] H3] H4] H5] H6].
  destruct (contains pattern (lower compressed)); [|lia].
  etransitivity; [apply replace_length; assumption|].
  etransitivity; [apply replace_length; assumption|].
  now apply replace_length.
Qed.

Lemma common_patterns_shorten :
  forallb entry_shortens common_patterns = true.
Proof. vm_compute. reflexivity. Qed.

Lemma fold_apply_pattern_length (l : list (string * string)) (compressed : string) :
  forallb entry_shortens l = true ->
  (String.length (fold_left apply_pattern l compressed)
   <= String.length compressed)%nat.
Proof.
  revert compressed. induction l as [|pr l IH]; intros compressed Hall;
    [simpl; lia|].
  cbn [forallb] in Hall. apply andb_true_iff in Hall. destruct Hall as [Hpr Hall].
  cbn [fold_left]. etransitivity; [apply IH, Hall|].
  now apply apply_pattern_length.
Qed.

Lemma remove_prefix_length (compressed prefix : string) :
  (String.length (remove_prefix compressed prefix) <= String.length compressed)%nat.
Proof.
  unfold remove_prefix.
  destruct (startswith (lower compressed) prefix
            && (String.length prefix + 2 <? String.length compressed)%nat);
    [rewrite drop_length|]; lia.
Qed.

Lemma fold_remove_prefix_length (l : list string) (compressed : string) :
  (String.length (fold_left remove_prefix l compressed)
   <= String.length compressed)%nat.
Proof.
  revert compressed. induction l as [|p l IH]; intros compressed; [simpl; lia|].
  cbn [fold_left]. etransitivity; [apply IH|]. apply remove_prefix_length.
Qed.

(** X11: the abbreviation pass and the prefix pass never lengthen a text, so
    the value compressor returns either its argument unchanged or a strictly
    shorter text, and it returns its argument exactly when the two passes
    left the length as it was. *)
Theorem compress_value_length (value : string) :
  (String.length (transformed value) <= String.length value)%nat /\
  (compress_value value = value \/
   (compress_value value = transformed value /\
    String.length (compress_value value) < String.length value)%nat) /\
  (compress_value value = value <->
   String.length (transformed value) = String.length value).
Proof.
  assert (Hlen : (String.length (transformed value) <= String.length value)%nat).
  { unfold transformed. etransitivity; [apply fold_remove_prefix_length|].
    apply fold_apply_pattern_length, common_patterns_shorten. }
  split; [exact Hlen|]. split.
  - destruct (Nat.eq_dec (String.length (transformed value)) (String.length value))
      as [Heq|Hne].
    + left. apply compress_value_unchanged. lia.
    + right. rewrite compress_value_shorter by lia. split; [reflexivity|lia].
  - split.
    + intros Heq.
      destruct (Nat.eq_dec (String.length (transformed value)) (String.length value))
        as [Hlen'|Hne]; [exact Hlen'|].
      rewrite compress_value_shorter in Heq by lia. rewrite Heq in Hne. lia.
    + intros Heq. apply compress_value_unchanged. lia.
Qed.

(** ** Lines of one exact signature are merged *)

(** X20: any two input nodes at different positions that agree on their
    type, their language and the first 30 characters of their text, and
    whose semantic signatures are not kept, are both emitted as 'P' records
    with one id and decode to nodes that differ at most in their line
    number: both carry the type, the compressed text and the language of the
    first input node with that exact signature, whatever their own texts
    hold after the 30th character. *)
Theorem same_exact_signature_merged (nodes : list Node) (i j : nat)
    (ni nj : Node) :
  i <> j ->
  nth_error nodes i = Some ni ->
  nth_error nodes j = Some nj ->
  n_type ni = n_type nj ->
  n_language ni = n_language nj ->
  take 30 (n_value ni) = take 30 (n_value nj) ->
  semantic_kept nodes ni = false ->
  semantic_kept nodes nj = false ->
  exists id first,
    first_with create_compact_signature (create_compact_signature ni) nodes
    = Some first /\
    nth_error (records (simulate_compression nodes)) i
    = Some (ItemP id (n_line_number ni)) /\
    nth_error (records (simulate_compression nodes)) j
    = Some (ItemP id (n_line_number nj)) /\
    nth_error (simulate_decompression (simulate_compression nodes)) i
    = Some {| n_type := n_type first;
              n_value := compress_value (n_value first);
              n_line_number := n_line_number ni;
              n_language := n_language first;
              n_semantic_type := None |} /\
    nth_error (simulate_decompression (simulate_compression nodes)) j
    = Some {| n_type := n_type first;
              n_value := compress_value (n_value first);
              n_line_number := n_line_number nj;
              n_language := n_language first;
              n_semantic_type := None |}.
Proof.
  intros Hne Hi Hj Hty Hlang Htake Hki Hkj.
  assert (Hsig : create_compact_signature nj = create_compact_signature ni)
    by (rewrite !create_compact_signature_take; congruence).
  pose proof (occurrences_two create_compact_signature
                (create_compact_signature ni) nodes i j ni nj Hne Hi Hj
                eq_refl Hsig) as Hocc.
  apply Z.ltb_lt in Hocc.
  destruct (first_with_In (key := create_compact_signature) nodes ni
                          (nth_error_In _ _ Hi)) as [first [Hfirst _]].
  pose proof (pattern_table_get nodes (create_compact_signature ni)) as Hpat.
  rewrite Hfirst, Hocc in Hpat. destruct Hpat as [id Hget].
  assert (Hmiss : forall n, In n nodes -> semantic_kept nodes n = false ->
                            PyDict.get (create_semantic_signature n)
                                       (semantic_table (simulate_compression nodes))
                            = None).
  { intros n Hin Hk.
    pose proof (semantic_table_get nodes (create_semantic_signature n)) as Hsem.
    destruct (first_with_In (key := create_semantic_signature) nodes n Hin)
      as [fs [Hfs _]].
    unfold semantic_kept, semantic_key_kept in Hk. rewrite Hfs in Hsem, Hk.
    now rewrite Hk in Hsem. }
  exists id, first. split; [exact Hfirst|].
  rewrite simulate_decompression_records, records_simulate_compression.
  rewrite (decompress_items_map _ _ _ (round_trip_node nodes))
    by (intros node Hin; now apply round_trip_item).
  rewrite (map_nth_error _ _ _ Hi), (map_nth_error _ _ _ Hj).
  rewrite (map_nth_error _ _ _ Hi), (map_nth_error _ _ _ Hj).
  unfold compress_node, round_trip_node, pattern_kept, pattern_key_kept.
  rewrite (Hmiss ni (nth_error_In _ _ Hi) Hki), (Hmiss nj (nth_error_In _ _ Hj) Hkj).
  rewrite Hki, Hkj, Hsig, Hget, Hocc, Hfirst. cbn [pe_count pe_id get_default].
  rewrite Hocc. repeat split.
Qed.

Lemma same_exact_signature_merged_witness :
  exists id first,
    first_with create_compact_signature
      (create_compact_signature
         (line_node "aaaaaaaaaaaaaaaaaaaaaaaaaaaaaa + b" 1 "demo")) long_lines
    = Some first /\
    nth_error (records (simulate_compression long_lines)) 0
    = Some (ItemP id 1) /\
    nth_error (records (simulate_compression long_lines)) 1
    = Some (ItemP id 2) /\
    nth_error (simulate_decompression (simulate_compression long_lines)) 0
    = Some {| n_type := n_type first;
              n_value := compress_value (n_value first);
              n_line_number := 1;
              n_language := n_language first;
              n_semantic_type := None |} /\
    nth_error (simulate_decompression (simulate_compression long_lines)) 1
    = Some {| n_type := n_type first;
              n_value := compress_value (n_value first);
              n_line_number := 2;
              n_language := n_language first;
              n_semantic_type := None |}.
Proof.
  apply (same_exact_signature_merged long_lines 0 1
           (line_node "aaaaaaaaaaaaaaaaaaaaaaaaaaaaaa + b" 1 "demo")
           (line_node "aaaaaaaaaaaaaaaaaaaaaaaaaaaaaa + yield c" 2 "demo"));
    try reflexivity; try discriminate; vm_compute; reflexivity.
Defined.

(** ** Documents that lack a key *)

(** X21: a document with a 'data' list but neither table decodes to the
    nodes of its 'O' records alone, every 'P' and 'S' record being passed
    over, while the size estimate of the same document raises KeyError on
    'patterns'; a document without 'data' decodes to the empty list whatever
    else it holds. *)
Theorem documents_lacking_keys (items : list Item) (m : option Metadata)
    (pats : option (dict PatternEntry)) (sems : option (dict SemanticEntry)) :
  simulate_decompression
    {| patterns := None; semantic_patterns := None; data := Some items;
       metadata := m |}
  = flat_map (fun item =>
                match item with
                | ItemO type value line_number =>
                    [ {| n_type := type; n_value := value;
                         n_line_number := line_number;
                         n_language := "unknown"; n_semantic_type := None |} ]
                | _ => []
                end) items /\
  get_compressed_size
    {| patterns := None; semantic_patterns := None; data := Some items;
       metadata := m |}
  = KeyError "patterns" /\
  simulate_decompression
    {| patterns := pats; semantic_patterns := sems; data := None; metadata := m |}
  = [].
Proof.
  split; [|split; reflexivity].
  unfold simulate_decompression. cbn [data patterns semantic_patterns get_default].
  induction items as [|item items IH]; [reflexivity|].
  cbn [decompress_items flat_map]. rewrite IH.
  destruct item; reflexivity.
Qed.

(** ** The engine simulation: references and round trip *)

Module RealisticFacts.
Import Realistic.

Lemma rnode_eta (n : RNode) :
  mkRNode (r_type n) (r_value n) (r_line_number n) (r_language n)
          (r_children n) (r_metadata n) = n.
Proof. now destruct n. Qed.

Lemma r_occurrences_cons (k : string) (a : RNode) (nodes : list RNode) :
  occurrences k (a :: nodes)
  = (if (create_pattern_signature a =? k)%string then 1 else 0)
    + occurrences k nodes.
Proof.
  unfold occurrences. simpl.
  destruct (create_pattern_signature a =? k)%string; simpl List.length; lia.
Qed.

Lemma r_occurrences_In (nodes : list RNode) (node : RNode) :
  In node nodes -> 1 <= occurrences (create_pattern_signature node) nodes.
Proof.
  intros Hin. induction nodes as [|a nodes IH]; [contradiction|].
  rewrite r_occurrences_cons.
  assert (0 <= occurrences (create_pattern_signature node) nodes)
    by (unfold occurrences; lia).
  destruct Hin as [->|Hin].
  - rewrite String.eqb_refl. lia.
  - specialize (IH Hin).
    destruct (create_pattern_signature a =? create_pattern_signature node)%string;
      lia.
Qed.

(* after the first loop, a signature holds the number of nodes that have
   it, on top of what it held before *)
Lemma detect_pattern_count (nodes : list RNode) (d : dict PatternInfo) (k : string) :
  option_map pi_count (PyDict.get k (fold_left detect_pattern nodes d))
  = match PyDict.get k d with
    | Some info => Some (pi_count info + occurrences k nodes)
    | None => if 0 <? occurrences k nodes then Some (occurrences k nodes) else None
    end.
Proof.
  revert d. induction nodes as [|a nodes IH]; intros d.
  - cbn [fold_left]. destruct (PyDict.get k d) as [info|]; [|reflexivity].
    unfold occurrences. simpl. now rewrite Z.add_0_r.
  - cbn [fold_left]. rewrite IH, r_occurrences_cons.
    assert (Hnn : 0 <= occurrences k nodes) by (unfold occurrences; lia).
    unfold detect_pattern.
    destruct (String.eqb_spec (create_pattern_signature a) k) as [Heq|Hne].
    + rewrite Heq. unfold PyDict.mem.
      destruct (PyDict.get k d) as [info|] eqn:Hget.
      * rewrite get_update_same, Hget. cbn [option_map pi_count].
        f_equal. lia.
      * rewrite get_set_same. cbn [pi_count].
        destruct (Z.ltb_spec 0 (1 + occurrences k nodes)); [reflexivity|lia].
    + destruct (PyDict.mem (create_pattern_signature a) d).
      * rewrite get_update_other by exact Hne.
        destruct (PyDict.get k d); reflexivity.
      * rewrite get_set_other by exact Hne.
        destruct (PyDict.get k d); reflexivity.
Qed.

Section Hashed.
Variable hash : string -> Z.

Lemma compress_nodes_elements (patterns : dict PatternInfo)
    (nodes l : list RNode) :
  (forall n, In n l ->
     option_map pi_count (PyDict.get (create_pattern_signature n) patterns)
     = Some (occurrences (create_pattern_signature n) nodes)) ->
  compress_nodes hash patterns l = Returns (map (element_of hash nodes) l).
Proof.
  induction l as [|a l IH]; intros H; [reflexivity|].
  cbn [compress_nodes map]. pose proof (H a (or_introl eq_refl)) as Ha.
  destruct (PyDict.get (create_pattern_signature a) patterns) as [info|];
    [|discriminate].
  cbn [option_map] in Ha. injection Ha as Ha.
  rewrite IH by (intros n Hn; apply H; now right).
  unfold element_of. rewrite Ha, rnode_eta. reflexivity.
Qed.

Lemma apply_fixed_compression_map (nodes : list RNode) :
  apply_fixed_compression hash nodes = Returns (map (element_of hash nodes) nodes).
Proof.
  unfold apply_fixed_compression. apply compress_nodes_elements.
  intros n Hin. rewrite detect_pattern_count. cbn [PyDict.get].
  pose proof (r_occurrences_In nodes n Hin).
  destruct (Z.ltb_spec 0 (occurrences (create_pattern_signature n) nodes));
    [reflexivity|lia].
Qed.

(** X12: [apply_fixed_compression] never raises and returns one element for
    each node, in order: a pattern reference that holds a copy of the node,
    the number of nodes with its signature, and an id from 0 to 9999, when
    more than one node has the node's signature, and the node itself
    otherwise. *)
Theorem apply_fixed_compression_elements (nodes : list RNode) :
  apply_fixed_compression hash nodes = Returns (map (element_of hash nodes) nodes) /\
  Forall (fun element =>
            match element with
            | PatternReference pattern_id original_node pattern_count _ =>
                0 <= pattern_id < 10000 /\
                pattern_count
                = occurrences (create_pattern_signature original_node) nodes /\
                1 < pattern_count /\ In original_node nodes
            | Kept node =>
                occurrences (create_pattern_signature node) nodes = 1 /\
                In node nodes
            end)
         (map (element_of hash nodes) nodes).
Proof.
  split; [apply apply_fixed_compression_map|].
  apply Forall_map, Forall_forall. intros n Hin. unfold element_of.
    pose proof (r_occurrences_In nodes n Hin).
    destruct (Z.ltb_spec 1 (occurrences (create_pattern_signature n) nodes)).
    + repeat split; try assumption.
      * apply Z.mod_pos_bound. lia.
      * apply Z.mod_pos_bound. lia.
    + split; [lia|assumption].
Qed.

Lemma decompress_elements (nodes l : list RNode) :
  apply_fixed_decompression (map (element_of hash nodes) l)
  = if existsb (misread nodes) l then KeyError "original_node" else Returns l.
Proof.
  induction l as [|a l IH]; [reflexivity|].
  cbn [map apply_fixed_decompression existsb]. rewrite IH.
  unfold element_of, misread.
  destruct (1 <? occurrences (create_pattern_signature a) nodes); cbn [negb andb orb].
  - rewrite rnode_eta. destruct (existsb _ l); reflexivity.
  - destruct (r_type a =? "pattern_reference")%string; cbn [orb];
      [reflexivity|]. destruct (existsb _ l); reflexivity.
Qed.

(** X13: decompressing what [apply_fixed_compression] returns gives back the
    input list exactly, unless some input node whose signature no other node
    has is of type 'pattern_reference': the decoder then takes that node for
    a reference and raises KeyError on 'original_node'. *)
Theorem fixed_round_trip (nodes : list RNode) :
  exists compressed,
    apply_fixed_compression hash nodes = Returns compressed /\
    apply_fixed_decompression compressed
    = if existsb (misread nodes) nodes
      then KeyError "original_node"
      else Returns nodes.
Proof.
  exists (map (element_of hash nodes) nodes). split.
  - apply apply_fixed_compression_map.
  - apply decompress_elements.
Qed.

Lemma create_realistic_ast_statement (content language : string) (n : RNode) :
  In n (create_realistic_ast content language) -> r_type n = "statement".
Proof.
  unfold create_realistic_ast. intros Hin. apply in_flat_map in Hin.
  destruct Hin as [[i line] [_ Hin]].
  destruct (strip line =? "")%string; [contradiction|].
  destruct Hin as [<-|[]]. reflexivity.
Qed.

(** X14: for every text, every language tag and every hash function, the
    nodes of [create_realistic_ast] survive compression followed by
    decompression unchanged, so the structural-integrity check of
    [run_real_compression] compares a list with itself. *)
Theorem realistic_round_trip (content language : string) :
  exists compressed,
    apply_fixed_compression hash (create_realistic_ast content language)
    = Returns compressed /\
    apply_fixed_decompression compressed
    = Returns (create_realistic_ast content language) /\
    List.length compressed
    = List.length (create_realistic_ast content language).
Proof.
  exists (map (element_of hash (create_realistic_ast content language))
              (create_realistic_ast content language)).
  split; [apply apply_fixed_compression_map|]. split; [|apply length_map].
  rewrite decompress_elements.
  assert (Hno : existsb (misread (create_realistic_ast content language))
                        (create_realistic_ast content language) = false).
  { apply not_true_is_false. intros Hex. apply existsb_exists in Hex.
    destruct Hex as [n [Hin Hmis]]. unfold misread in Hmis.
    apply andb_true_iff in Hmis. destruct Hmis as [_ Hty].
    rewrite (create_realistic_ast_statement _ _ _ Hin) in Hty. discriminate. }
  now rewrite Hno.
Qed.

End Hashed.

End RealisticFacts.

(** ** The ledger *)

Module LedgerFacts.
Import Ledger.

Section Crypto.
Variable sha256_hex : string -> string.
Variable Data : Type.
Variable hash_string : string -> Data -> string -> option string -> string.


Lemma opt_eqb_refl (o : option string) : opt_eqb o o = true.
Proof. destruct o; simpl; [apply String.eqb_refl|reflexivity]. Qed.

Lemma opt_eqb_eq (a b : option string) : opt_eqb a b = true -> a = b.
Proof.
  destruct a, b; simpl; try discriminate; [|reflexivity].
  intros H. apply String.eqb_eq in H. now subst.
Qed.

(* one turn of the verification loop either verifies the entry or records a
   signature failure *)
Lemma verify_entry_step (public_key : string) (st : VerifyState Data)
    (i : nat) (e : MythGraphEntry Data) :
  let st' := verify_entry sha256_hex Data hash_string public_key st (i, e) in
  List.length (vs_entries Data st') = S (List.length (vs_entries Data st)) /\
  ((vs_verified Data st' = vs_verified Data st + 1 /\
    vs_failed Data st' = vs_failed Data st /\
    vs_errors Data st' = vs_errors Data st) \/
   (vs_verified Data st' = vs_verified Data st /\
    vs_failed Data st' = vs_failed Data st + 1 /\
    vs_errors Data st' = (vs_errors Data st ++ [SignatureFailed i])%list)).
Proof.
  unfold verify_entry, calculate_hash.
  cbn [hash previous_hash]. rewrite opt_eqb_refl. cbn [negb].
  destruct (verify_signature sha256_hex Data _ public_key); cbn [negb].
  - rewrite opt_eqb_refl. cbn [negb]. rewrite andb_false_r.
    cbn [vs_entries vs_verified vs_failed vs_errors].
    rewrite length_app. cbn [List.length]. split; [lia|]. left. auto.
  - cbn [vs_entries vs_verified vs_failed vs_errors].
    rewrite length_app. cbn [List.length]. split; [lia|]. right. auto.
Qed.

Lemma verify_fold (public_key : string) (l : list (nat * MythGraphEntry Data))
    (st : VerifyState Data) :
  let st' := fold_left (verify_entry sha256_hex Data hash_string public_key) l st in
  List.length (vs_entries Data st')
  = (List.length (vs_entries Data st) + List.length l)%nat /\
  vs_verified Data st' + vs_failed Data st'
  = vs_verified Data st + vs_failed Data st + Z.of_nat (List.length l) /\
  vs_verified Data st <= vs_verified Data st' /\
  exists new_errors,
    vs_errors Data st' = (vs_errors Data st ++ new_errors)%list /\
    Forall (fun err => exists i, err = SignatureFailed i) new_errors /\
    Z.of_nat (List.length new_errors) = vs_failed Data st' - vs_failed Data st.
Proof.
  revert st. induction l as [|[i e] l IH]; intros st.
  - cbn [fold_left List.length]. repeat split; try lia.
    exists []. rewrite app_nil_r. repeat split; [constructor|simpl; lia].
  - cbn [fold_left]. cbv zeta in IH |- *.
    destruct (verify_entry_step public_key st i e) as [Hlen Hstep].
    cbv zeta in Hlen, Hstep.
    destruct (IH (verify_entry sha256_hex Data hash_string public_key st (i, e)))
      as [Hl [Hsum [Hmono [errs [Herrs [Hall Hcount]]]]]].
    cbn [List.length].
    destruct Hstep as [[Hv [Hf He]]|[Hv [Hf He]]].
    + repeat split; try lia.
      exists errs. rewrite Herrs, He. repeat split; [exact Hall|lia].
    + repeat split; try lia.
      exists (SignatureFailed i :: errs). rewrite Herrs, He, <- app_assoc.
      repeat split.
      * constructor; [now exists i|exact Hall].
      * cbn [List.length]. lia.
Qed.

(** X15: whatever the ledger holds, [verify_ledger_integrity] counts every
    entry as verified or failed, records one error for each failed entry,
    and every error it records is a signature failure: since it recomputes
    and stores each hash before comparing, it never reports a hash mismatch
    or a previous-hash mismatch.  It leaves as many entries as it found. *)
Theorem verify_only_signature_failures (self : MythGraphLedger Data) :
  let results := fst (verify_ledger_integrity sha256_hex Data hash_string self) in
  let after := snd (verify_ledger_integrity sha256_hex Data hash_string self) in
  total_entries results = Z.of_nat (List.length (entries self)) /\
  verified_entries results + failed_entries results = total_entries results /\
  0 <= verified_entries results /\
  Z.of_nat (List.length (errors results)) = failed_entries results /\
  Forall (fun err => exists i, err = SignatureFailed i) (errors results) /\
  List.length (entries after) = List.length (entries self).
Proof.
  unfold verify_ledger_integrity.
  cbn [fst snd total_entries verified_entries failed_entries errors entries].
  destruct (verify_fold (public_key self)
              (combine (seq 0 (List.length (entries self))) (entries self))
              {| vs_previous_hash := None; vs_verified := 0; vs_failed := 0;
                 vs_errors := []; vs_entries := [] |})
    as [Hl [Hsum [Hmono [errs [Herrs [Hall Hcount]]]]]].
  cbv zeta in Hl, Hsum, Hmono, Herrs, Hcount.
  cbn [vs_entries vs_verified vs_failed vs_errors List.length app] in *.
  rewrite length_combine, length_seq, Nat.min_id in *.
  rewrite Herrs. repeat split; try lia. exact Hall.
Qed.

(* a SHA-256 hex digest is never the empty text *)
Hypothesis sha256_hex_nonempty : forall s, sha256_hex s <> "".

Lemma truthy_digest (s : string) : truthy (Some (sha256_hex s)) = true.
Proof.
  unfold truthy. destruct (String.eqb_spec (sha256_hex s) ""); [|reflexivity].
  now destruct (sha256_hex_nonempty s).
Qed.

Lemma last_hash_app (prev : option string) (es : list (MythGraphEntry Data))
    (e : MythGraphEntry Data) :
  last_hash Data prev (es ++ [e]) = hash e.
Proof. unfold last_hash. now rewrite fold_left_app. Qed.

Lemma chained_app (key : string) (prev : option string)
    (es : list (MythGraphEntry Data)) (e : MythGraphEntry Data) :
  chained sha256_hex Data hash_string key prev es ->
  chained sha256_hex Data hash_string key (last_hash Data prev es) [e] ->
  chained sha256_hex Data hash_string key prev (es ++ [e]).
Proof.
  revert prev. induction es as [|a es IH]; intros prev Hes He; [exact He|].
  cbn [app chained] in *. destruct Hes as [Hp [Hh [Hs Hrest]]].
  repeat split; try assumption. apply IH; assumption.
Qed.


Lemma add_entry_well_chained (self : MythGraphLedger Data) (t : string)
    (d : Data) (now : string) :
  well_chained sha256_hex Data hash_string self ->
  let after := fst (add_entry sha256_hex Data hash_string self t d now) in
  let entry_hash := snd (add_entry sha256_hex Data hash_string self t d now) in
  well_chained sha256_hex Data hash_string after /\
  ledger_hash after = entry_hash /\
  public_key after = public_key self /\
  private_key after = private_key self /\
  map (added_as Data) (entries after)
  = (map (added_as Data) (entries self) ++ [(t, d, now)])%list.
Proof.
  intros [Hchain Hlast]. unfold add_entry, calculate_hash, sign_entry.
  cbn [fst snd hash]. rewrite truthy_digest.
  cbn [fst snd entries ledger_hash public_key private_key hash entry_type
       data timestamp previous_hash].
  assert (Hprev : match entries self with
                  | [] => None
                  | _ :: _ => Some (ledger_hash self)
                  end = last_hash Data None (entries self)).
  { destruct (entries self); [reflexivity|now rewrite Hlast]. }
  rewrite Hprev. split; [|split; [reflexivity|split; [reflexivity|split;
    [reflexivity|]]]].
  - unfold well_chained.
    cbn [entries private_key ledger_hash]. split.
    + apply chained_app; [exact Hchain|]. cbn [chained hash previous_hash
        entry_type data timestamp signature render]. repeat split.
    + rewrite last_hash_app. cbn [hash].
      destruct (entries self ++ _)%list eqn:Happ; [exact I|reflexivity].
  - rewrite map_app. reflexivity.
Qed.

Lemma build_from (adds : list (string * Data * string))
    (start : MythGraphLedger Data) :
  well_chained sha256_hex Data hash_string start ->
  let after :=
    fold_left (fun l a => fst (add_entry sha256_hex Data hash_string l
                                         (fst (fst a)) (snd (fst a)) (snd a)))
              adds start in
  well_chained sha256_hex Data hash_string after /\
  public_key after = public_key start /\
  private_key after = private_key start /\
  map (added_as Data) (entries after)
  = (map (added_as Data) (entries start) ++ adds)%list /\
  match adds with [] => after = start | _ :: _ => True end.
Proof.
  revert start. induction adds as [|[[t d] now] adds IH]; intros start Hstart.
  - cbn [fold_left]. rewrite app_nil_r. split; [exact Hstart|]. repeat split.
  - cbn [fold_left fst snd]. cbv zeta in IH |- *.
    destruct (add_entry_well_chained start t d now Hstart)
      as [Hwc [_ [Hpub [Hpriv Hmap]]]].
    cbv zeta in Hwc, Hpub, Hpriv, Hmap.
    destruct (IH _ Hwc) as [Hwc' [Hpub' [Hpriv' [Hmap' _]]]].
    split; [exact Hwc'|]. split; [congruence|]. split; [congruence|].
    split; [|exact I].
    rewrite Hmap', Hmap, <- app_assoc. reflexivity.
Qed.

(** X16: a ledger built by add_entry calls on a new ledger holds one entry
    per call, in order, with the type, data and timestamp of the call; the
    entries are chained: the first has no previous hash, every other holds
    the hash of the one before it, each hash is the digest of the entry's
    content and previous hash, and each signature the digest of the hash and
    the private key; ledger_hash is the hash of the last entry, or 64 zeros
    when there is none. *)
Theorem built_ledger_chained (public_key private_key : string)
    (adds : list (string * Data * string)) :
  let self := build sha256_hex Data hash_string public_key private_key adds in
  map (added_as Data) (entries self) = adds /\
  chained sha256_hex Data hash_string private_key None (entries self) /\
  Some (ledger_hash self)
  = last_hash Data (Some zero_hash) (entries self) /\
  Ledger.public_key self = public_key /\
  Ledger.private_key self = private_key.
Proof.
  unfold build.
  destruct (build_from adds (new_ledger Data public_key private_key))
    as [[Hchain Hlast] [Hpub [Hpriv [Hmap Hnil]]]];
    [split; exact I|].
  cbv zeta in *. cbn [new_ledger entries Ledger.public_key Ledger.private_key
                      map app] in Hpub, Hpriv, Hmap.
  rewrite Hpriv in Hchain.
  split; [exact Hmap|]. split; [exact Hchain|].
  split; [|split; [exact Hpub|exact Hpriv]].
  destruct adds as [|a adds].
  - rewrite Hnil. reflexivity.
  - destruct (entries _) as [|e es] eqn:Hes; [discriminate Hmap|].
    rewrite <- Hlast. reflexivity.
Qed.

Lemma verify_chained (key : string) (es : list (MythGraphEntry Data)) (a : nat)
    (st : VerifyState Data) :
  chained sha256_hex Data hash_string key (vs_previous_hash Data st) es ->
  fold_left (verify_entry sha256_hex Data hash_string key)
            (combine (seq a (List.length es)) es) st
  = {| vs_previous_hash := last_hash Data (vs_previous_hash Data st) es;
       vs_verified := vs_verified Data st + Z.of_nat (List.length es);
       vs_failed := vs_failed Data st;
       vs_errors := vs_errors Data st;
       vs_entries := (vs_entries Data st ++ es)%list |}.
Proof.
  revert a st. induction es as [|e es IH]; intros a st Hchain.
  - cbn [List.length seq combine fold_left last_hash].
    rewrite app_nil_r, Z.add_0_r. now destruct st.
  - cbn [chained] in Hchain. destruct Hchain as [Hp [Hh [Hs Hrest]]].
    cbn [List.length seq combine fold_left].
    assert (Hstep : verify_entry sha256_hex Data hash_string key st (a, e)
                    = {| vs_previous_hash := hash e;
                         vs_verified := vs_verified Data st + 1;
                         vs_failed := vs_failed Data st;
                         vs_errors := vs_errors Data st;
                         vs_entries := (vs_entries Data st ++ [e])%list |}).
    { destruct e as [t d ts h sg p].
      cbn [previous_hash hash signature entry_type data timestamp] in Hp, Hh, Hs.
      subst p h sg.
      unfold verify_entry, calculate_hash, verify_signature.
      cbn [hash previous_hash signature entry_type data timestamp render].
      rewrite truthy_digest, !opt_eqb_refl. cbn [negb].
      rewrite andb_false_r. reflexivity. }
    rewrite Hstep, IH by exact Hrest.
    cbn [vs_previous_hash vs_verified vs_failed vs_errors vs_entries last_hash
         fold_left].
    rewrite <- app_assoc. cbn [app]. f_equal. lia.
Qed.

(** X17: when the public key equals the private key, verifying a ledger
    built by add_entry calls verifies every entry, records no error and
    leaves the ledger as it was. *)
Theorem built_ledger_verifies (key : string) (adds : list (string * Data * string)) :
  verify_ledger_integrity sha256_hex Data hash_string
    (build sha256_hex Data hash_string key key adds)
  = ({| total_entries := Z.of_nat (List.length adds);
        verified_entries := Z.of_nat (List.length adds);
        failed_entries := 0;
        errors := [] |},
     build sha256_hex Data hash_string key key adds).
Proof.
  unfold build.
  destruct (build_from adds (new_ledger Data key key))
    as [[Hchain _] [Hpub [Hpriv [Hmap _]]]]; [split; exact I|].
  cbv zeta in *. cbn [new_ledger entries public_key private_key map app]
    in Hpub, Hpriv, Hmap.
  apply (f_equal (@List.length _)) in Hmap. rewrite length_map in Hmap.
  set (self := fold_left _ adds _) in *.
  unfold verify_ledger_integrity. rewrite Hpub.
  rewrite Hpriv in Hchain.
  rewrite (verify_chained key (entries self) 0) by exact Hchain.
  cbn [vs_verified vs_failed vs_errors vs_entries app]. rewrite Hmap.
  f_equal. destruct self. cbn in Hpub, Hpriv |- *. now subst.
Qed.

Lemma find_app_last {A : Type} (f : A -> bool) (l : list A) (x : A) :
  f x = true -> exists y, find f (l ++ [x]) = Some y /\ f y = true.
Proof.
  intros Hx. induction l as [|a l IH]; cbn [app find].
  - rewrite Hx. eauto.
  - destruct (f a) eqn:Ha; eauto.
Qed.

(** X18: the hash add_entry returns finds an entry: after the call,
    get_entry_by_hash with that hash returns an entry of the ledger that
    carries this hash. *)
Theorem added_entry_found (self : MythGraphLedger Data) (t : string) (d : Data)
    (now : string) :
  let after := fst (add_entry sha256_hex Data hash_string self t d now) in
  let entry_hash := snd (add_entry sha256_hex Data hash_string self t d now) in
  exists e,
    get_entry_by_hash Data after entry_hash = Some e /\
    hash e = Some entry_hash /\
    In e (entries after).
Proof.
  unfold add_entry, calculate_hash, sign_entry, get_entry_by_hash.
  cbn [fst snd hash]. rewrite truthy_digest. cbn [fst snd entries hash].
  match goal with
  | |- context [find ?f (?l ++ [?x])%list] =>
      destruct (find_app_last f l x) as [y [Hfind Hy]];
        [cbn [hash]; apply opt_eqb_refl|]
  end.
  exists y. split; [exact Hfind|]. split.
  - now apply opt_eqb_eq in Hy.
  - apply find_some in Hfind. tauto.
Qed.

Lemma slice_from_last {A : Type} (n : positive) (l : list A) :
  slice_from (- Z.pos n) l = skipn (List.length l - Pos.to_nat n) l.
Proof.
  unfold slice_from. cbn [Z.opp Z.ltb Z.compare]. f_equal. lia.
Qed.

Lemma slice_from_drop {A : Type} (n : positive) (l : list A) :
  slice_from (- Z.neg n) l = skipn (Pos.to_nat n) l.
Proof.
  unfold slice_from. cbn [Z.opp Z.ltb Z.compare].
  destruct (Z.le_gt_cases (Z.pos n) (Z.of_nat (List.length l))) as [Hle|Hgt].
  - f_equal. lia.
  - rewrite !skipn_all2 by lia. reflexivity.
Qed.

Lemma In_skipn {A : Type} (n : nat) (l : list A) (x : A) :
  In x (skipn n l) -> In x l.
Proof.
  intros Hin. rewrite <- (firstn_skipn n l). apply in_or_app. now right.
Qed.

(** X19: the limit of get_entries.  A positive limit n keeps the last n
    entries of the selected type (all of them when there are fewer); the
    limit 0 is taken for no limit and keeps them all; a negative limit -n
    drops the first n of them instead.  With a non-empty type filter every
    entry returned has that type. *)
Theorem get_entries_limit (self : MythGraphLedger Data) (filter_type : option string)
    (limit : Z) :
  get_entries Data self filter_type (Some limit)
  = match limit with
    | 0 => entries_of_type Data self filter_type
    | Z.pos n =>
        skipn (List.length (entries_of_type Data self filter_type) - Pos.to_nat n)
              (entries_of_type Data self filter_type)
    | Z.neg n => skipn (Pos.to_nat n) (entries_of_type Data self filter_type)
    end /\
  match filter_type with
  | Some t =>
      if (t =? "")%string
      then entries_of_type Data self filter_type = entries self
      else Forall (fun e => entry_type e = t)
                  (get_entries Data self filter_type (Some limit))
  | None => entries_of_type Data self filter_type = entries self
  end.
Proof.
  assert (Hlimit :
    get_entries Data self filter_type (Some limit)
    = match limit with
      | 0 => entries_of_type Data self filter_type
      | Z.pos n =>
          skipn (List.length (entries_of_type Data self filter_type) - Pos.to_nat n)
                (entries_of_type Data self filter_type)
      | Z.neg n => skipn (Pos.to_nat n) (entries_of_type Data self filter_type)
      end).
  { unfold entries_of_type, get_entries. destruct limit as [|n|n].
    - reflexivity.
    - cbn [Z.eqb]. apply slice_from_last.
    - cbn [Z.eqb]. apply slice_from_drop. }
  split; [exact Hlimit|].
  destruct filter_type as [t|]; [|reflexivity].
  destruct (t =? "")%string eqn:Ht.
  - unfold entries_of_type, get_entries. now rewrite Ht.
  - rewrite Hlimit.
    assert (Hall : Forall (fun e : MythGraphEntry Data => entry_type e = t)
                          (entries_of_type Data self (Some t))).
    { unfold entries_of_type, get_entries. rewrite Ht.
      apply Forall_forall. intros e He. apply filter_In in He.
      destruct He as [_ He]. now apply String.eqb_eq in He. }
    rewrite Forall_forall in Hall |- *.
    destruct limit as [|n|n]; [exact Hall| |];
      intros e He; apply Hall; eapply In_skipn; exact He.
Qed.

End Crypto.

(* the theorems above at a toy digest, which is never empty, on a ledger of
   two entries *)

Lemma built_ledger_chained_witness :
  (forall s : string, "#" ++ s <> "") /\
  let self :=
    build (fun s => "#" ++ s) nat
          (fun t d ts prev => t ++ ts ++ render prev)
          "k" "k" [("incident", 1%nat, "t1"); ("paradox", 2%nat, "t2")] in
  map (added_as nat) (entries self)
  = [("incident", 1%nat, "t1"); ("paradox", 2%nat, "t2")] /\
  chained (fun s => "#" ++ s) nat (fun t d ts prev => t ++ ts ++ render prev)
          "k" None (entries self) /\
  Some (ledger_hash self) = last_hash nat (Some zero_hash) (entries self) /\
  public_key self = "k" /\
  private_key self = "k".
Proof.
  split; [discriminate|].
  apply (built_ledger_chained (fun s => "#" ++ s) nat
           (fun t d ts prev => t ++ ts ++ render prev)).
  discriminate.
Defined.

Lemma built_ledger_verifies_witness :
  (forall s : string, "#" ++ s <> "") /\
  verify_ledger_integrity (fun s => "#" ++ s) nat
    (fun t d ts prev => t ++ ts ++ render prev)
    (build (fun s => "#" ++ s) nat (fun t d ts prev => t ++ ts ++ render prev)
           "k" "k" [("incident", 1%nat, "t1"); ("paradox", 2%nat, "t2")])
  = ({| total_entries := 2; verified_entries := 2; failed_entries := 0;
        errors := [] |},
     build (fun s => "#" ++ s) nat (fun t d ts prev => t ++ ts ++ render prev)
           "k" "k" [("incident", 1%nat, "t1"); ("paradox", 2%nat, "t2")]).
Proof.
  split; [discriminate|].
  apply (built_ledger_verifies (fun s => "#" ++ s) nat
           (fun t d ts prev => t ++ ts ++ render prev)).
  discriminate.
Defined.

Lemma added_entry_found_witness :
  (forall s : string, "#" ++ s <> "") /\
  exists e,
    get_entry_by_hash nat
      (fst (add_entry (fun s => "#" ++ s) nat
                      (fun t d ts prev => t ++ ts ++ render prev)
                      (new_ledger nat "k" "k") "incident" 1%nat "t1"))
      (snd (add_entry (fun s => "#" ++ s) nat
                      (fun t d ts prev => t ++ ts ++ render prev)
                      (new_ledger nat "k" "k") "incident" 1%nat "t1"))
    = Some e /\
    hash e
    = Some (snd (add_entry (fun s => "#" ++ s) nat
                           (fun t d ts prev => t ++ ts ++ render prev)
                           (new_ledger nat "k" "k") "incident" 1%nat "t1")) /\
    In e (entries
            (fst (add_entry (fun s => "#" ++ s) nat
                            (fun t d ts prev => t ++ ts ++ render prev)
                            (new_ledger nat "k" "k") "incident" 1%nat "t1"))).
Proof.
  split; [discriminate|].
  apply (added_entry_found (fun s => "#" ++ s) nat
           (fun t d ts prev => t ++ ts ++ render prev)).
  discriminate.
Defined.

End LedgerFacts.
